(** * PIAM&V project console: the project store and its commands

    A shallow embedding of [piamv_console.py].  The program keeps one JSON
    record per project under [data/projects]; every command line verb loads
    the record, changes the aggregate in memory and writes it back.

    Modelling choices, each following the source:
    - a Python [str] is a [string], a sequence of characters with codes below
      256; [isspace] and [lower] are Python's on that range;
    - the files are a finite map from path to JSON document.  [json.dumps] and
      [json.loads] belong to Python's library and are inverse to one another on
      documents made of dicts, lists and strings, so the map keeps the document
      itself; a path is the string [pathlib] prints for it on POSIX, and the
      join of [DATA_DIR] and the file name is [pathlib]'s, which drops empty
      names and single dots and starts over at a leading slash.  Writing a
      file always succeeds in the map, as it does in the code for the names
      the file system takes ([storable] below);
    - [datetime.utcnow().isoformat()] reads a clock that is part of the world:
      the n-th reading is [clock n];
    - [raise SystemExit(msg)] and Python's own exceptions are results of the
      command monad, which threads the world through reads, writes and
      prints. *)

From stdpp Require Import base option list gmap strings pretty.
From Stdlib Require Import Ascii String.

Local Open Scope string_scope.
Local Open Scope list_scope.

(** ** Strings *)

(** [str.isspace] for one character: the code points below 256 that Python
    treats as whitespace are 9-13, 28-32, 133 and 160. *)
Definition isspace (c : ascii) : bool :=
  let n := nat_of_ascii c in
  ((9 <=? n)%nat && (n <=? 13)%nat) || ((28 <=? n)%nat && (n <=? 32)%nat)
  || (n =? 133)%nat || (n =? 160)%nat.

Fixpoint lstrip (s : string) : string :=
  match s with
  | String c s' => if isspace c then lstrip s' else s
  | EmptyString => EmptyString
  end.

Fixpoint rstrip (s : string) : string :=
  match s with
  | EmptyString => EmptyString
  | String c s' =>
      match rstrip s' with
      | EmptyString => if isspace c then EmptyString else String c EmptyString
      | r => String c r
      end
  end.

(** [s.strip()] *)
Definition strip (s : string) : string := lstrip (rstrip s).

(** [s.replace(old, new)] for one-character [old] and [new]. *)
Fixpoint replace (old new : ascii) (s : string) : string :=
  match s with
  | EmptyString => EmptyString
  | String c s' =>
      String (if Ascii.eqb c old then new else c) (replace old new s')
  end.

(** [str.lower] for one character: A-Z, and the Latin-1 capitals 192-222
    without the multiplication sign 215, move up by 32. *)
Definition lower_char (c : ascii) : ascii :=
  let n := nat_of_ascii c in
  if ((65 <=? n)%nat && (n <=? 90)%nat)
     || ((192 <=? n)%nat && (n <=? 222)%nat && negb (n =? 215)%nat)
  then ascii_of_nat (n + 32) else c.

Fixpoint lower (s : string) : string :=
  match s with
  | EmptyString => EmptyString
  | String c s' => String (lower_char c) (lower s')
  end.

(** [sep.join(l)] *)
Fixpoint join (sep : string) (l : list string) : string :=
  match l with
  | [] => ""
  | [x] => x
  | x :: l' => x +:+ sep +:+ join sep l'
  end.

(** [x or d] where [x] is [None] or a [str]: the empty string is falsy. *)
Definition py_or (x : option string) (d : string) : string :=
  match x with
  | Some (String c s) => String c s
  | _ => d
  end.

(** [bool(s)] of a [str]. *)
Definition truthy (s : string) : bool :=
  match s with EmptyString => false | _ => true end.

Definition nl : string := String (ascii_of_nat 10) EmptyString.

(** ** JSON documents *)

#[warnings="-register-all"]
Inductive json :=
| JStr (s : string)
| JList (l : list json)
| JDict (d : list (string * json)).

(** [d.get(k)] on the items of a dict. *)
Fixpoint dict_get (k : string) (d : list (string * json)) : option json :=
  match d with
  | [] => None
  | (k', v) :: d' => if String.eqb k' k then Some v else dict_get k d'
  end.

(** What a [for] loop sees when it iterates over a JSON value: the elements
    of a list, the characters of a string, the keys of a dict. *)
Fixpoint chars (s : string) : list json :=
  match s with
  | EmptyString => []
  | String c s' => JStr (String c EmptyString) :: chars s'
  end.

Definition py_iter (j : json) : list json :=
  match j with
  | JList l => l
  | JStr s => chars s
  | JDict d => map (λ kv, JStr kv.1) d
  end.

(** ** The world and the command monad *)

(** Python exceptions that end a command.  [NotStr] stands for a record with
    a field that is not a [str]: Python would build an object that the record
    types below do not describe; the program never writes such a record. *)
Inductive exn :=
| SystemExit (msg : string)
| KeyError (key : string)
| TypeError
| FileNotFoundError
| NotStr.

Inductive result (A : Type) :=
| Ok (a : A)
| Raise (e : exn).
Arguments Ok {A} a.
Arguments Raise {A} e.

Record World := mkWorld {
  files : gmap string json;
  stdout : list string;
  clock : nat → string;
  ticks : nat }.

Definition M (A : Type) : Type := World → result A * World.

Definition ret {A} (a : A) : M A := λ w, (Ok a, w).

Definition bind {A B} (m : M A) (k : A → M B) : M B :=
  λ w, match m w with
       | (Ok a, w') => k a w'
       | (Raise e, w') => (Raise e, w')
       end.

Definition raise {A} (e : exn) : M A := λ w, (Raise e, w).

Declare Scope cmd_scope.
Delimit Scope cmd_scope with cmd.
Bind Scope cmd_scope with M.
Notation "x <- c1 ;; c2" := (bind c1 (λ x, c2))
  (at level 100, c1 at next level, right associativity) : cmd_scope.
Notation "c1 ;; c2" := (bind c1 (λ _, c2))
  (at level 100, c2 at level 200, right associativity) : cmd_scope.
Local Open Scope cmd_scope.

(** [path.exists()] *)
Definition path_exists (path : string) : M bool :=
  λ w, (Ok (bool_decide (is_Some (files w !! path))), w).

(** [json.loads(path.read_text())] *)
Definition read_json (path : string) : M json :=
  λ w, match files w !! path with
       | Some doc => (Ok doc, w)
       | None => (Raise FileNotFoundError, w)
       end.

(** The three ways a command changes the world. *)
Definition with_file (path : string) (doc : json) (w : World) : World :=
  mkWorld (<[path := doc]> (files w)) (stdout w) (clock w) (ticks w).

Definition with_line (line : string) (w : World) : World :=
  mkWorld (files w) (stdout w ++ [line]) (clock w) (ticks w).

Definition ticked (w : World) : World :=
  mkWorld (files w) (stdout w) (clock w) (S (ticks w)).

(** [path.write_text(json.dumps(doc, indent=2))] *)
Definition write_json (path : string) (doc : json) : M unit :=
  λ w, (Ok (), with_file path doc w).

(** [print(line)] *)
Definition print (line : string) : M unit :=
  λ w, (Ok (), with_line line w).

(** [datetime.utcnow().isoformat()] *)
Definition utcnow_isoformat : M string :=
  λ w, (Ok (clock w (ticks w)), ticked w).

(** A list comprehension whose element expression runs in the monad. *)
Fixpoint comprehension {A B} (f : A → M B) (l : list A) : M (list B) :=
  match l with
  | [] => ret []
  | x :: l' => y <- f x ;; ys <- comprehension f l' ;; ret (y :: ys)
  end.

(** ** Keyword arguments of the dataclass constructors

    A call [Rule] with the items of the dict [rule] as keyword arguments
    (two stars before [rule]) binds them to the fields of the dataclass: a key that is no field, or a field without default that has no
    key, raises [TypeError]; a field with a default takes it when its key is
    missing. *)

Definition known (fields : list string) (kw : list (string * json)) : bool :=
  forallb (λ kv, bool_decide (kv.1 ∈ fields)) kw.

Definition as_str (j : json) : M string :=
  match j with
  | JStr s => ret s
  | _ => raise NotStr
  end.

Definition required (k : string) (kw : list (string * json)) : M string :=
  match dict_get k kw with
  | Some v => as_str v
  | None => raise TypeError
  end.

Definition defaulted (k : string) (dflt : M string) (kw : list (string * json))
  : M string :=
  match dict_get k kw with
  | Some v => as_str v
  | None => dflt
  end.

(** [payload[k]] *)
Definition item (k : string) (d : list (string * json)) : M string :=
  match dict_get k d with
  | Some v => as_str v
  | None => raise (KeyError k)
  end.

(** [payload.get(k, [])] *)
Definition get_list (k : string) (d : list (string * json)) : json :=
  default (JList []) (dict_get k d).

(** ** The data model *)

Module Rule.
Record t := mk {
  source : string;
  title : string;
  text : string;
  section : string;
  page : string;
  created_at : string }.

(** [rule.__dict__] *)
Definition dict (r : t) : list (string * json) :=
  [("source", JStr (source r)); ("title", JStr (title r));
   ("text", JStr (text r)); ("section", JStr (section r));
   ("page", JStr (page r)); ("created_at", JStr (created_at r))].

Definition fields : list string :=
  ["source"; "title"; "text"; "section"; "page"; "created_at"].

(** The constructor called with the keyword arguments [kw]. *)
Definition init (kw : list (string * json)) : M t :=
  if known fields kw then
    source <- required "source" kw ;;
    title <- required "title" kw ;;
    text <- required "text" kw ;;
    section <- defaulted "section" (ret "") kw ;;
    page <- defaulted "page" (ret "") kw ;;
    created_at <- defaulted "created_at" utcnow_isoformat kw ;;
    ret (mk source title text section page created_at)
  else raise TypeError.

(** The constructor called on [rule] unpacked: a [rule] that is no dict
    raises [TypeError]. *)
Definition of_json (rule : json) : M t :=
  match rule with
  | JDict kw => init kw
  | _ => raise TypeError
  end.
End Rule.

Module SourceDocument.
Record t := mk {
  name : string;
  path : string;
  notes : string;
  added_at : string }.

Definition dict (s : t) : list (string * json) :=
  [("name", JStr (name s)); ("path", JStr (path s));
   ("notes", JStr (notes s)); ("added_at", JStr (added_at s))].

Definition fields : list string := ["name"; "path"; "notes"; "added_at"].

Definition init (kw : list (string * json)) : M t :=
  if known fields kw then
    name <- required "name" kw ;;
    path <- required "path" kw ;;
    notes <- defaulted "notes" (ret "") kw ;;
    added_at <- defaulted "added_at" utcnow_isoformat kw ;;
    ret (mk name path notes added_at)
  else raise TypeError.

Definition of_json (source : json) : M t :=
  match source with
  | JDict kw => init kw
  | _ => raise TypeError
  end.
End SourceDocument.

Module ProjectStep.
Record t := mk {
  name : string;
  status : string;
  notes : string }.

Definition dict (s : t) : list (string * json) :=
  [("name", JStr (name s)); ("status", JStr (status s));
   ("notes", JStr (notes s))].

Definition fields : list string := ["name"; "status"; "notes"].

Definition init (kw : list (string * json)) : M t :=
  if known fields kw then
    name <- required "name" kw ;;
    status <- defaulted "status" (ret "pending") kw ;;
    notes <- defaulted "notes" (ret "") kw ;;
    ret (mk name status notes)
  else raise TypeError.

Definition of_json (step : json) : M t :=
  match step with
  | JDict kw => init kw
  | _ => raise TypeError
  end.
End ProjectStep.

Module Project.
Record t := mk {
  name : string;
  project_type : string;
  created_at : string;
  rules : list Rule.t;
  steps : list ProjectStep.t;
  sources : list SourceDocument.t }.

Definition to_dict (self : t) : json :=
  JDict
    [("name", JStr (name self));
     ("project_type", JStr (project_type self));
     ("created_at", JStr (created_at self));
     ("rules", JList (map (λ rule, JDict (Rule.dict rule)) (rules self)));
     ("steps", JList (map (λ step, JDict (ProjectStep.dict step)) (steps self)));
     ("sources",
      JList (map (λ source, JDict (SourceDocument.dict source)) (sources self)))].

(** Indexing a payload that is a list or a string raises [TypeError]. *)
Definition from_dict (payload : json) : M t :=
  match payload with
  | JDict d =>
      name <- item "name" d ;;
      project_type <- item "project_type" d ;;
      created_at <- item "created_at" d ;;
      rules <- comprehension Rule.of_json (py_iter (get_list "rules" d)) ;;
      steps <- comprehension ProjectStep.of_json (py_iter (get_list "steps" d)) ;;
      sources <-
        comprehension SourceDocument.of_json (py_iter (get_list "sources" d)) ;;
      ret (mk name project_type created_at rules steps sources)
  | _ => raise TypeError
  end.

(** In-place changes of the lists a project owns. *)
Definition set_rules (self : t) (rules' : list Rule.t) : t :=
  mk (name self) (project_type self) (created_at self) rules' (steps self)
     (sources self).

Definition set_steps (self : t) (steps' : list ProjectStep.t) : t :=
  mk (name self) (project_type self) (created_at self) (rules self) steps'
     (sources self).

Definition set_sources (self : t) (sources' : list SourceDocument.t) : t :=
  mk (name self) (project_type self) (created_at self) (rules self)
     (steps self) sources'.
End Project.

Definition DEFAULT_PIAMV_STEPS : list string :=
  ["Project scoping";
   "Baseline definition";
   "Measurement & verification plan";
   "Implementation & commissioning";
   "Data collection";
   "Analysis & savings calculation";
   "Reporting & assurance"].

Definition DATA_DIR : string := "data/projects".

(** ** The store *)

(** [DATA_DIR.mkdir(parents=True, exist_ok=True)]: directories are not part
    of the file map; the call never fails and changes no file. *)
Definition ensure_data_dir : M unit := ret ().

(** [s.split("/")] *)
Fixpoint split_sep (s : string) : list string :=
  match s with
  | EmptyString => [EmptyString]
  | String c s' =>
      if Ascii.eqb c "/" then EmptyString :: split_sep s'
      else match split_sep s' with
           | x :: xs => String c x :: xs
           | [] => [String c EmptyString]
           end
  end.

(** The names of a path as [pathlib] parses it: the pieces between the
    separators, without the empty ones and the single dots. *)
Definition path_names (s : string) : list string :=
  List.filter (λ x, negb (String.eqb x "") && negb (String.eqb x "."))
    (split_sep s).

(** The root of a path on POSIX: two leading slashes are kept, one slash and
    three or more are the root [/], none is a relative path. *)
Definition path_root (s : string) : string :=
  match s with
  | String "/" (String "/" (String "/" _)) => "/"
  | String "/" (String "/" _) => "//"
  | String "/" _ => "/"
  | _ => ""
  end.

(** [str] of a path with the given root and names. *)
Definition path_str (root : string) (names : list string) : string :=
  match root, names with
  | EmptyString, [] => "."
  | _, _ => root +:+ join "/" names
  end.

(** [str(Path(dir) / child)]: a [child] with a root replaces [dir]. *)
Definition path_join (dir child : string) : string :=
  match path_root child with
  | EmptyString => path_str (path_root dir) (path_names dir ++ path_names child)
  | root => path_str root (path_names child)
  end.

(** [DATA_DIR / f"{safe_name}.json"], as the string of the path. *)
Definition project_path (name : string) : string :=
  let safe_name := replace " " "-" (strip name) in
  path_join DATA_DIR (safe_name +:+ ".json").

Definition load_project (name : string) : M Project.t :=
  let path := project_path name in
  found <- path_exists path ;;
  if negb found then
    raise (SystemExit ("Project '" +:+ name +:+ "' not found at " +:+ path +:+ "."))
  else
    payload <- read_json path ;;
    Project.from_dict payload.

Definition save_project (project : Project.t) : M unit :=
  ensure_data_dir ;;
  let path := project_path (Project.name project) in
  write_json path (Project.to_dict project).

(** ** The commands

    Each command takes the attributes of its [argparse.Namespace] as
    arguments: [args_name] is [args.name], and an optional attribute is
    [None] when the flag is absent. *)

Definition init_project (args_name : string) : M unit :=
  found <- path_exists (project_path args_name) ;;
  if found then
    raise (SystemExit ("Project '" +:+ args_name +:+ "' already exists."))
  else
    let steps :=
      map (λ step, ProjectStep.mk step "pending" "") DEFAULT_PIAMV_STEPS in
    created_at <- utcnow_isoformat ;;
    let project := Project.mk args_name "PIAM&V" created_at [] steps [] in
    save_project project ;;
    print ("Initialized project '" +:+ args_name +:+ "' with "
           +:+ pretty (List.length steps) +:+ " steps.").

Definition add_rule (args_project args_source args_title args_text : string)
    (args_section args_page : option string) : M unit :=
  project <- load_project args_project ;;
  created_at <- utcnow_isoformat ;;
  let rule :=
    Rule.mk args_source args_title args_text (py_or args_section "")
            (py_or args_page "") created_at in
  let project := Project.set_rules project (Project.rules project ++ [rule]) in
  save_project project ;;
  print ("Added rule '" +:+ args_title +:+ "' from " +:+ args_source +:+ ".").

Definition add_source (args_project args_name args_path : string)
    (args_notes : option string) : M unit :=
  project <- load_project args_project ;;
  added_at <- utcnow_isoformat ;;
  let source :=
    SourceDocument.mk args_name args_path (py_or args_notes "") added_at in
  let project :=
    Project.set_sources project (Project.sources project ++ [source]) in
  save_project project ;;
  print ("Added source '" +:+ args_name +:+ "' at " +:+ args_path +:+ ".").

(** The [for step in project.steps] loop of [update_step]: [todo] is what is
    left of the list and [i] the index of its head.  The matching step is an
    element of [project.steps] and is changed in place, so the project that
    is saved has the new step at index [i].  The result tells whether the
    loop returned from the function. *)
Fixpoint update_step_loop (args_step args_status : string)
    (args_notes : option string) (project : Project.t) (i : nat)
    (todo : list ProjectStep.t) : M bool :=
  match todo with
  | [] => ret false
  | step :: todo' =>
      if String.eqb (lower (ProjectStep.name step)) (lower args_step) then
        let step' :=
          ProjectStep.mk (ProjectStep.name step) args_status
                         (py_or args_notes (ProjectStep.notes step)) in
        let project' :=
          Project.set_steps project (<[i := step']> (Project.steps project)) in
        save_project project' ;;
        print ("Updated step '" +:+ ProjectStep.name step' +:+ "' to status '"
               +:+ ProjectStep.status step' +:+ "'.") ;;
        ret true
      else
        update_step_loop args_step args_status args_notes project (S i) todo'
  end.

Definition update_step (args_project args_step args_status : string)
    (args_notes : option string) : M unit :=
  project <- load_project args_project ;;
  returned <-
    update_step_loop args_step args_status args_notes project 0
                     (Project.steps project) ;;
  if returned then ret ()
  else
    let available := join ", " (map ProjectStep.name (Project.steps project)) in
    raise (SystemExit ("Step '" +:+ args_step
                       +:+ "' not found. Available steps: " +:+ available)).

(** [for x in l: body] *)
Fixpoint for_each {A} (body : A → M unit) (l : list A) : M unit :=
  match l with
  | [] => ret ()
  | x :: l' => body x ;; for_each body l'
  end.

(** [enumerate(l, start)] *)
Fixpoint enumerate {A} (start : nat) (l : list A) : list (nat * A) :=
  match l with
  | [] => []
  | x :: l' => (start, x) :: enumerate (S start) l'
  end.

Definition list_rules (args_project : string) : M unit :=
  project <- load_project args_project ;;
  match Project.rules project with
  | [] => print "No rules attached yet."
  | _ =>
      for_each
        (λ '((idx, rule) : nat * Rule.t),
           let location :=
              (if truthy (Rule.section rule)
              then ["section: " +:+ Rule.section rule] else [])
             ++ (if truthy (Rule.page rule)
                 then ["page: " +:+ Rule.page rule] else []) in
           let location_text :=
             match location with
             | [] => ""
             | _ => " (" +:+ join ", " location +:+ ")"
             end in
           print (pretty idx +:+ ". [" +:+ Rule.source rule +:+ "] "
                  +:+ Rule.title rule +:+ location_text +:+ nl +:+ "   "
                  +:+ Rule.text rule))
        (enumerate 1 (Project.rules project))
  end.

Definition list_sources (args_project : string) : M unit :=
  project <- load_project args_project ;;
  match Project.sources project with
  | [] => print "No sources attached yet."
  | _ =>
      for_each
        (λ '((idx, source) : nat * SourceDocument.t),
           let notes :=
             if truthy (SourceDocument.notes source)
             then " (" +:+ SourceDocument.notes source +:+ ")" else "" in
           print (pretty idx +:+ ". " +:+ SourceDocument.name source +:+ ": "
                  +:+ SourceDocument.path source +:+ notes))
        (enumerate 1 (Project.sources project))
  end.

Definition show_project (args_project : string) : M unit :=
  project <- load_project args_project ;;
  print ("Project: " +:+ Project.name project) ;;
  print ("Type: " +:+ Project.project_type project) ;;
  print ("Created: " +:+ Project.created_at project) ;;
  print (nl +:+ "Steps:") ;;
  for_each
    (λ step,
       let note :=
         if truthy (ProjectStep.notes step)
         then " (" +:+ ProjectStep.notes step +:+ ")" else "" in
       print ("- " +:+ ProjectStep.name step +:+ ": "
              +:+ ProjectStep.status step +:+ note))
    (Project.steps project) ;;
  print (nl +:+ "Rules:") ;;
  match Project.rules project with
  | [] => print "- None"
  | _ =>
      for_each
        (λ rule, print ("- [" +:+ Rule.source rule +:+ "] " +:+ Rule.title rule))
        (Project.rules project)
  end ;;
  print (nl +:+ "Sources:") ;;
  match Project.sources project with
  | [] => print "- None"
  | _ =>
      for_each
        (λ source,
           let notes :=
             if truthy (SourceDocument.notes source)
             then " (" +:+ SourceDocument.notes source +:+ ")" else "" in
           print ("- " +:+ SourceDocument.name source +:+ ": "
                  +:+ SourceDocument.path source +:+ notes))
        (Project.sources project)
  end.

(** ** The command line

    [build_parser] accepts seven verbs; [--status] is restricted to three
    tokens by its [choices]. *)

Inductive Status := pending | in_progress | complete.

Definition status_token (s : Status) : string :=
  match s with
  | pending => "pending"
  | in_progress => "in_progress"
  | complete => "complete"
  end.

Inductive command :=
| Init (name : string)
| AddRule (project source title text : string) (section page : option string)
| ListRules (project : string)
| AddSource (project name path : string) (notes : option string)
| ListSources (project : string)
| Step (project step : string) (status : Status) (notes : option string)
| Show (project : string).

(** [args.func(args)] *)
Definition main (args : command) : M unit :=
  match args with
  | Init name => init_project name
  | AddRule project source title text section page =>
      add_rule project source title text section page
  | ListRules project => list_rules project
  | AddSource project name path notes => add_source project name path notes
  | ListSources project => list_sources project
  | Step project step status notes =>
      update_step project step (status_token status) notes
  | Show project => show_project project
  end.

(** The project a command line names. *)
Definition target (args : command) : string :=
  match args with
  | Init name => name
  | AddRule project _ _ _ _ _ => project
  | ListRules project => project
  | AddSource project _ _ _ => project
  | ListSources project => project
  | Step project _ _ _ => project
  | Show project => project
  end.

(** A session: one invocation after the other, each a process of its own,
    so a failing one ends itself only. *)
Definition run (session : list command) (w : World) : World :=
  foldl (λ w args, (main args w).2) w session.

(** The world before the first invocation: no file, nothing printed. *)
Definition boot (clock : nat → string) : World := mkWorld ∅ [] clock 0.

(** ** Notions the properties are stated with *)

(** The project [init_project] builds for [name] when the clock reads
    [now]. *)
Definition new_project (name now : string) : Project.t :=
  Project.mk name "PIAM&V" now []
    (map (λ step, ProjectStep.mk step "pending" "") DEFAULT_PIAMV_STEPS) [].

(** A command that writes no file. *)
Definition quiet {A} (m : M A) : Prop := ∀ w, files (m w).2 = files w.

(** [p'] is a later state of [p]: same identity and step names, rules and
    sources only appended to. *)
Definition extends (p p' : Project.t) : Prop :=
  Project.name p' = Project.name p
  ∧ Project.project_type p' = Project.project_type p
  ∧ Project.created_at p' = Project.created_at p
  ∧ map ProjectStep.name (Project.steps p') = map ProjectStep.name (Project.steps p)
  ∧ Project.rules p `prefix_of` Project.rules p'
  ∧ Project.sources p `prefix_of` Project.sources p'.

(** Every file is the record of a project with the canonical steps, filed
    under the path of the project's own name. *)
Definition kept (w : World) : Prop :=
  ∀ path doc, files w !! path = Some doc →
    ∃ p, doc = Project.to_dict p
         ∧ project_path (Project.name p) = path
         ∧ map ProjectStep.name (Project.steps p) = DEFAULT_PIAMV_STEPS.

(** [step] names the step [s], as [update_step] compares them. *)
Definition names (step : string) (s : ProjectStep.t) : Prop :=
  lower (ProjectStep.name s) = lower step.





(** A clock for the worked examples: the n-th reading is a date with [n]
    in the seconds. *)
Definition example_clock (n : nat) : string :=
  "2024-05-01T09:00:0" +:+ pretty n.

(** ** Notions for the commands that print *)

(** Several lines printed one after the other. *)
Definition with_lines (lines : list string) (w : World) : World :=
  mkWorld (files w) (stdout w ++ lines) (clock w) (ticks w).

(** The entry of a rule in a listing: its number, the source in brackets,
    the title, in parentheses the section and the page that are not empty,
    and the text on a line of its own. *)
Definition rule_entry (idx : nat) (rule : Rule.t) : string :=
  pretty idx +:+ ". [" +:+ Rule.source rule +:+ "] " +:+ Rule.title rule
  +:+ match Rule.section rule, Rule.page rule with
      | EmptyString, EmptyString => ""
      | EmptyString, page => " (page: " +:+ page +:+ ")"
      | section, EmptyString => " (section: " +:+ section +:+ ")"
      | section, page =>
          " (section: " +:+ section +:+ ", page: " +:+ page +:+ ")"
      end
  +:+ nl +:+ "   " +:+ Rule.text rule.

(** Notes in parentheses after an entry, nothing when there are none. *)
Definition notes_suffix (notes : string) : string :=
  match notes with
  | EmptyString => ""
  | _ => " (" +:+ notes +:+ ")"
  end.

Definition source_entry (idx : nat) (source : SourceDocument.t) : string :=
  pretty idx +:+ ". " +:+ SourceDocument.name source +:+ ": "
  +:+ SourceDocument.path source +:+ notes_suffix (SourceDocument.notes source).

(** The summary of a project, line by line. *)
Definition summary (p : Project.t) : list string :=
  ["Project: " +:+ Project.name p;
   "Type: " +:+ Project.project_type p;
   "Created: " +:+ Project.created_at p;
   nl +:+ "Steps:"]
  ++ map (λ step, "- " +:+ ProjectStep.name step +:+ ": "
                  +:+ ProjectStep.status step
                  +:+ notes_suffix (ProjectStep.notes step))
       (Project.steps p)
  ++ [nl +:+ "Rules:"]
  ++ match Project.rules p with
     | [] => ["- None"]
     | rules =>
         map (λ rule, "- [" +:+ Rule.source rule +:+ "] " +:+ Rule.title rule)
           rules
     end
  ++ [nl +:+ "Sources:"]
  ++ match Project.sources p with
     | [] => ["- None"]
     | sources =>
         map (λ source, "- " +:+ SourceDocument.name source +:+ ": "
                        +:+ SourceDocument.path source
                        +:+ notes_suffix (SourceDocument.notes source))
           sources
     end.

(** The characters of a string, to speak of the ones it contains. *)
Definition has_char (c : ascii) (s : string) : Prop :=
  c ∈ list_ascii_of_string s.

(** The length in bytes of a string encoded as UTF-8: a character below 128
    takes one byte, the other characters below 256 take two. *)
Fixpoint utf8_length (s : string) : nat :=
  match s with
  | EmptyString => 0
  | String c s' =>
      (if (nat_of_ascii c <? 128)%nat then 1 else 2) + utf8_length s'
  end.

(** A name the file system takes for a file in a directory that exists: no
    separator, no NUL, and at most 255 bytes.  [write_text] raises for other
    names, which the file map does not show. *)
Definition file_name_ok (s : string) : Prop :=
  ¬ has_char "/" s ∧ ¬ has_char "000" s ∧ (utf8_length s ≤ 255)%nat.

(** A project name whose record file has such a name. *)
Definition storable (name : string) : Prop :=
  file_name_ok (replace " " "-" (strip name) +:+ ".json").

(** The three tokens [--status] accepts. *)
Definition status_choices : list string :=
  ["pending"; "in_progress"; "complete"].

(** A command that succeeds, prints [lines] and does nothing else. *)
Definition prints (m : M unit) (lines : list string) : Prop :=
  ∀ w, m w = (Ok (), with_lines lines w).

(** What every record the commands write satisfies: the type is PIAM&V and
    every step has one of the three statuses. *)
Definition regular (p : Project.t) : Prop :=
  Project.project_type p = "PIAM&V"
  ∧ Forall (λ s, ProjectStep.status s ∈ status_choices) (Project.steps p).

(** The paths of the names a session gives to [init]. *)
Definition init_paths (session : list command) : gset string :=
  list_to_set
    (omap (λ args, match args with
                   | Init name => Some (project_path name)
                   | _ => None
                   end) session).

(** ** Running the monad *)

Lemma bind_ok {A B} (m : M A) (k : A → M B) w a w' :
  m w = (Ok a, w') → bind m k w = k a w'.
Proof. intros H. unfold bind. by rewrite H. Qed.

Lemma bind_raise {A B} (m : M A) (k : A → M B) w e w' :
  m w = (Raise e, w') → bind m k w = (Raise e, w').
Proof. intros H. unfold bind. by rewrite H. Qed.

Lemma comprehension_map {A B} (f : B → M A) (g : A → B) (l : list A) w :
  (∀ x w, f (g x) w = (Ok x, w)) →
  comprehension f (map g l) w = (Ok l, w).
Proof.
  intros Hfg. induction l as [|x l IH]; [done|].
  cbn [map comprehension]. rewrite (bind_ok _ _ _ _ _ (Hfg x w)).
  by rewrite (bind_ok _ _ _ _ _ IH).
Qed.

Lemma Rule_of_dict r w : Rule.of_json (JDict (Rule.dict r)) w = (Ok r, w).
Proof. by destruct r. Qed.

Lemma ProjectStep_of_dict s w :
  ProjectStep.of_json (JDict (ProjectStep.dict s)) w = (Ok s, w).
Proof. by destruct s. Qed.

Lemma SourceDocument_of_dict s w :
  SourceDocument.of_json (JDict (SourceDocument.dict s)) w = (Ok s, w).
Proof. by destruct s. Qed.

Lemma from_dict_to_dict p w :
  Project.from_dict (Project.to_dict p) w = (Ok p, w).
Proof.
  destruct p as [name type created rules steps sources].
  unfold Project.from_dict, Project.to_dict.
  cbn [Project.name Project.project_type Project.created_at Project.rules
       Project.steps Project.sources].
  do 3 (erewrite bind_ok; [|reflexivity]).
  erewrite bind_ok; [|by apply (comprehension_map Rule.of_json), Rule_of_dict].
  erewrite bind_ok;
    [|by apply (comprehension_map ProjectStep.of_json), ProjectStep_of_dict].
  erewrite bind_ok;
    [|by apply (comprehension_map SourceDocument.of_json),
         SourceDocument_of_dict].
  done.
Qed.

(** ** The store *)

Lemma save_project_run p w :
  save_project p w
  = (Ok (), with_file (project_path (Project.name p)) (Project.to_dict p) w).
Proof. reflexivity. Qed.

Lemma load_project_found name p w :
  files w !! project_path name = Some (Project.to_dict p) →
  load_project name w = (Ok p, w).
Proof.
  intros Hrec. unfold load_project, bind, path_exists, read_json. cbv zeta.
  rewrite bool_decide_eq_true_2 by eauto. cbn [negb]. rewrite Hrec.
  apply from_dict_to_dict.
Qed.

Lemma load_project_missing name w :
  files w !! project_path name = None →
  load_project name w
  = (Raise (SystemExit ("Project '" +:+ name +:+ "' not found at "
                        +:+ project_path name +:+ ".")), w).
Proof.
  intros Hrec. unfold load_project, bind, path_exists. cbv zeta.
  rewrite Hrec, bool_decide_eq_false_2; [done|]. by intros [? ?].
Qed.

Lemma init_project_fresh name w :
  files w !! project_path name = None →
  init_project name w
  = (Ok (),
     with_line ("Initialized project '" +:+ name +:+ "' with 7 steps.")
       (with_file (project_path name)
          (Project.to_dict (new_project name (clock w (ticks w))))
          (ticked w))).
Proof.
  intros Hrec. unfold init_project, bind, path_exists.
  rewrite Hrec, bool_decide_eq_false_2; [done|]. by intros [? ?].
Qed.

Lemma init_project_taken name w :
  is_Some (files w !! project_path name) →
  init_project name w
  = (Raise (SystemExit ("Project '" +:+ name +:+ "' already exists.")), w).
Proof.
  intros Hrec. unfold init_project, bind, path_exists.
  by rewrite bool_decide_eq_true_2.
Qed.

Lemma add_rule_run project source title text section page p w :
  files w !! project_path project = Some (Project.to_dict p) →
  add_rule project source title text section page w
  = (Ok (),
     with_line ("Added rule '" +:+ title +:+ "' from " +:+ source +:+ ".")
       (with_file (project_path (Project.name p))
          (Project.to_dict
             (Project.set_rules p
                (Project.rules p
                 ++ [Rule.mk source title text (py_or section "")
                             (py_or page "") (clock w (ticks w))])))
          (ticked w))).
Proof.
  intros Hrec. unfold add_rule.
  by rewrite (bind_ok _ _ _ _ _ (load_project_found _ _ _ Hrec)).
Qed.

Lemma add_source_run project name path notes p w :
  files w !! project_path project = Some (Project.to_dict p) →
  add_source project name path notes w
  = (Ok (),
     with_line ("Added source '" +:+ name +:+ "' at " +:+ path +:+ ".")
       (with_file (project_path (Project.name p))
          (Project.to_dict
             (Project.set_sources p
                (Project.sources p
                 ++ [SourceDocument.mk name path (py_or notes "")
                                       (clock w (ticks w))])))
          (ticked w))).
Proof.
  intros Hrec. unfold add_source.
  by rewrite (bind_ok _ _ _ _ _ (load_project_found _ _ _ Hrec)).
Qed.

(** ** The loop of [update_step] *)

Lemma names_dec step s : Decision (names step s).
Proof. unfold names. apply _. Qed.

Lemma names_eqb step s :
  String.eqb (lower (ProjectStep.name s)) (lower step) = true ↔ names step s.
Proof. apply String.eqb_eq. Qed.

Lemma first_match step (l : list ProjectStep.t) :
  Forall (λ s, ¬ names step s) l
  ∨ ∃ pre s post,
      l = pre ++ s :: post ∧ Forall (λ s, ¬ names step s) pre ∧ names step s.
Proof.
  induction l as [|x l [IH|(pre & s & post & -> & Hpre & Hs)]].
  - by left.
  - destruct (names_dec step x) as [Hx|Hx].
    + right. by exists [], x, l.
    + left. by constructor.
  - right. destruct (names_dec step x) as [Hx|Hx].
    + by exists [], x, (pre ++ s :: post).
    + exists (x :: pre), s, post. split_and!; [done| by constructor |done].
Qed.

Lemma update_step_loop_none step status notes p i todo w :
  Forall (λ s, ¬ names step s) todo →
  update_step_loop step status notes p i todo w = (Ok false, w).
Proof.
  intros Hno. revert i. induction Hno as [|s todo Hs _ IH]; intros i; [done|].
  cbn [update_step_loop].
  destruct (String.eqb _ _) eqn:E; [by apply names_eqb in E|]. apply IH.
Qed.

Lemma update_step_loop_first step status notes p i pre s post w :
  Forall (λ s, ¬ names step s) pre →
  names step s →
  update_step_loop step status notes p i (pre ++ s :: post) w
  = (Ok true,
     with_line ("Updated step '" +:+ ProjectStep.name s +:+ "' to status '"
                +:+ status +:+ "'.")
       (with_file (project_path (Project.name p))
          (Project.to_dict
             (Project.set_steps p
                (<[i + List.length pre :=
                     ProjectStep.mk (ProjectStep.name s) status
                       (py_or notes (ProjectStep.notes s))]>
                   (Project.steps p))))
          w)).
Proof.
  intros Hpre Hs. revert i.
  induction Hpre as [|x pre Hx _ IH]; intros i; cbn [app update_step_loop].
  - apply names_eqb in Hs. rewrite Hs. by rewrite Nat.add_0_r.
  - destruct (String.eqb _ _) eqn:E; [by apply names_eqb in E|].
    rewrite IH. cbn [List.length]. by rewrite Nat.add_succ_r.
Qed.

Lemma update_step_match project step status notes p pre s post w :
  files w !! project_path project = Some (Project.to_dict p) →
  Project.steps p = pre ++ s :: post →
  Forall (λ s, ¬ names step s) pre →
  names step s →
  update_step project step status notes w
  = (Ok (),
     with_line ("Updated step '" +:+ ProjectStep.name s +:+ "' to status '"
                +:+ status +:+ "'.")
       (with_file (project_path (Project.name p))
          (Project.to_dict
             (Project.set_steps p
                (pre ++ ProjectStep.mk (ProjectStep.name s) status
                          (py_or notes (ProjectStep.notes s)) :: post)))
          w)).
Proof.
  intros Hrec Hsteps Hpre Hs. unfold update_step.
  rewrite (bind_ok _ _ _ _ _ (load_project_found _ _ _ Hrec)).
  rewrite Hsteps at 1.
  rewrite (bind_ok _ _ _ _ _
             (update_step_loop_first _ status notes p 0 _ _ post w Hpre Hs)).
  cbn [Nat.add]. rewrite Hsteps.
  replace (List.length pre) with (List.length pre + 0) by lia.
  by rewrite insert_app_r.
Qed.

Lemma update_step_miss project step status notes p w :
  files w !! project_path project = Some (Project.to_dict p) →
  Forall (λ s, ¬ names step s) (Project.steps p) →
  update_step project step status notes w
  = (Raise (SystemExit
              ("Step '" +:+ step +:+ "' not found. Available steps: "
               +:+ join ", " (map ProjectStep.name (Project.steps p)))), w).
Proof.
  intros Hrec Hno. unfold update_step.
  rewrite (bind_ok _ _ _ _ _ (load_project_found _ _ _ Hrec)).
  by rewrite (bind_ok _ _ _ _ _
                (update_step_loop_none _ status notes p 0 _ w Hno)).
Qed.

(** ** Commands that write no file *)

Lemma quiet_ret {A} (a : A) : quiet (ret a).
Proof. done. Qed.

Lemma quiet_raise {A} e : quiet (@raise A e).
Proof. done. Qed.

Lemma quiet_bind {A B} (m : M A) (k : A → M B) :
  quiet m → (∀ a, quiet (k a)) → quiet (bind m k).
Proof.
  intros Hm Hk w. unfold bind. specialize (Hm w).
  destruct (m w) as [[a|e] w']; cbn in *; [|done]. by rewrite Hk.
Qed.

Lemma quiet_print line : quiet (print line).
Proof. done. Qed.

Lemma quiet_utcnow : quiet utcnow_isoformat.
Proof. done. Qed.

Lemma quiet_as_str j : quiet (as_str j).
Proof. by destruct j. Qed.

Lemma quiet_defaulted k dflt kw : quiet dflt → quiet (defaulted k dflt kw).
Proof. intros. unfold defaulted. destruct (dict_get k kw); auto using quiet_as_str. Qed.

Lemma quiet_required k kw : quiet (required k kw).
Proof. unfold required. destruct (dict_get k kw); auto using quiet_as_str, quiet_raise. Qed.

Lemma quiet_item k d : quiet (item k d).
Proof. unfold item. destruct (dict_get k d); auto using quiet_as_str, quiet_raise. Qed.

Lemma quiet_comprehension {A B} (f : A → M B) l :
  (∀ x, quiet (f x)) → quiet (comprehension f l).
Proof.
  intros Hf. induction l as [|x l IH]; [done|]. cbn [comprehension].
  apply quiet_bind; [done|]. intros y. apply quiet_bind; [done|]. done.
Qed.

Lemma quiet_for_each {A} (body : A → M unit) l :
  (∀ x, quiet (body x)) → quiet (for_each body l).
Proof.
  intros Hb. induction l as [|x l IH]; [done|]. cbn [for_each].
  by apply quiet_bind.
Qed.

Create HintDb quiet discriminated.
#[local] Hint Resolve quiet_ret quiet_raise quiet_print quiet_utcnow quiet_as_str
  quiet_defaulted quiet_required quiet_item quiet_comprehension
  quiet_for_each : quiet.
#[local] Hint Extern 2 (quiet (bind _ _)) => apply quiet_bind; [|intros] : quiet.

Lemma quiet_Rule_of_json j : quiet (Rule.of_json j).
Proof.
  destruct j; cbn; auto with quiet. unfold Rule.init.
  destruct (known _ _); auto 12 with quiet.
Qed.

Lemma quiet_ProjectStep_of_json j : quiet (ProjectStep.of_json j).
Proof.
  destruct j; cbn; auto with quiet. unfold ProjectStep.init.
  destruct (known _ _); auto 12 with quiet.
Qed.

Lemma quiet_SourceDocument_of_json j : quiet (SourceDocument.of_json j).
Proof.
  destruct j; cbn; auto with quiet. unfold SourceDocument.init.
  destruct (known _ _); auto 12 with quiet.
Qed.

Lemma quiet_from_dict payload : quiet (Project.from_dict payload).
Proof.
  destruct payload; cbn; auto with quiet.
  auto 20 using quiet_Rule_of_json, quiet_ProjectStep_of_json,
    quiet_SourceDocument_of_json with quiet.
Qed.

Lemma quiet_load_project name : quiet (load_project name).
Proof.
  unfold load_project. cbv zeta. apply quiet_bind; [done|]. intros found.
  destruct found; cbn [negb]; [|auto with quiet].
  apply quiet_bind; [|apply quiet_from_dict].
  intros w. unfold read_json. by destruct (files w !! _).
Qed.

Lemma quiet_list_rules project : quiet (list_rules project).
Proof.
  unfold list_rules. apply quiet_bind; [apply quiet_load_project|]. intros p.
  destruct (Project.rules p); [auto with quiet|].
  apply quiet_for_each. intros [idx rule]. auto with quiet.
Qed.

Lemma quiet_list_sources project : quiet (list_sources project).
Proof.
  unfold list_sources. apply quiet_bind; [apply quiet_load_project|]. intros p.
  destruct (Project.sources p); [auto with quiet|].
  apply quiet_for_each. intros [idx source]. auto with quiet.
Qed.

Lemma quiet_show_project project : quiet (show_project project).
Proof.
  unfold show_project. apply quiet_bind; [apply quiet_load_project|]. intros p.
  do 6 (apply quiet_bind; [auto with quiet|]; intros _).
  apply quiet_bind; [destruct (Project.rules p); auto with quiet|]. intros _.
  apply quiet_bind; [auto with quiet|]. intros _.
  destruct (Project.sources p); auto with quiet.
Qed.

(** ** Later states of a project *)

Lemma to_dict_inj p q : Project.to_dict p = Project.to_dict q → p = q.
Proof.
  intros Heq.
  pose proof (from_dict_to_dict p (boot (λ _, ""))) as Hp.
  rewrite Heq, from_dict_to_dict in Hp. congruence.
Qed.

Lemma extends_refl p : extends p p.
Proof. by repeat split. Qed.

Lemma extends_trans p q r : extends p q → extends q r → extends p r.
Proof.
  intros (?&?&?&?&?&?) (?&?&?&?&?&?).
  repeat split; try congruence; by etrans.
Qed.

Lemma extends_set_rules p rule :
  extends p (Project.set_rules p (Project.rules p ++ [rule])).
Proof. repeat split; try done. by apply prefix_app_r. Qed.

Lemma extends_set_sources p source :
  extends p (Project.set_sources p (Project.sources p ++ [source])).
Proof. repeat split; try done. by apply prefix_app_r. Qed.

Lemma extends_set_steps p pre s post status notes :
  Project.steps p = pre ++ s :: post →
  extends p (Project.set_steps p
               (pre ++ ProjectStep.mk (ProjectStep.name s) status notes :: post)).
Proof.
  intros Hsteps. repeat split; try done. cbn. rewrite Hsteps.
  by rewrite !map_app.
Qed.

(** ** What one invocation does to the files *)

Lemma main_effect args w :
  kept w →
  files (main args w).2 = files w
  ∨ ∃ p',
      files (main args w).2
      = <[project_path (target args) := Project.to_dict p']> (files w)
      ∧ project_path (Project.name p') = project_path (target args)
      ∧ map ProjectStep.name (Project.steps p') = DEFAULT_PIAMV_STEPS
      ∧ ((∃ name, args = Init name ∧ files w !! project_path name = None)
         ∨ ∃ p, files w !! project_path (target args) = Some (Project.to_dict p)
                ∧ extends p p').
Proof.
  intros Hkept.
  destruct args as [name|project source title text section page|project
                   |project name path notes|project|project step status notes
                   |project]; cbn [main target];
    try (left; apply quiet_list_rules || apply quiet_list_sources
               || apply quiet_show_project).
  - destruct (files w !! project_path name) as [doc|] eqn:Hrec.
    + left. by rewrite init_project_taken.
    + right. rewrite (init_project_fresh _ _ Hrec).
      eexists. split_and!; [done..|]. left. eauto.
  - destruct (files w !! project_path project) as [doc|] eqn:Hrec.
    + destruct (Hkept _ _ Hrec) as (p & -> & Hpath & Hsteps). right.
      rewrite (add_rule_run _ _ _ _ _ _ _ _ Hrec), Hpath.
      eexists. split_and!; [done..|]. right.
      eauto using extends_set_rules.
    + left. unfold add_rule.
      by rewrite (bind_raise _ _ _ _ _ (load_project_missing _ _ Hrec)).
  - destruct (files w !! project_path project) as [doc|] eqn:Hrec.
    + destruct (Hkept _ _ Hrec) as (p & -> & Hpath & Hsteps). right.
      rewrite (add_source_run _ _ _ _ _ _ Hrec), Hpath.
      eexists. split_and!; [done..|]. right.
      eauto using extends_set_sources.
    + left. unfold add_source.
      by rewrite (bind_raise _ _ _ _ _ (load_project_missing _ _ Hrec)).
  - destruct (files w !! project_path project) as [doc|] eqn:Hrec.
    + destruct (Hkept _ _ Hrec) as (p & -> & Hpath & Hsteps).
      destruct (first_match step (Project.steps p))
        as [Hno|(pre & s & post & Hsplit & Hpre & Hs)].
      * left. by rewrite (update_step_miss _ _ _ _ _ _ Hrec Hno).
      * right.
        rewrite (update_step_match _ _ _ _ _ _ _ _ _ Hrec Hsplit Hpre Hs), Hpath.
        pose proof (extends_set_steps p pre s post (status_token status)
                      (py_or notes (ProjectStep.notes s)) Hsplit) as Hext.
        eexists. split_and!; [done|done| |right; eauto].
        destruct Hext as (_&_&_&->&_). done.
    + left. unfold update_step.
      by rewrite (bind_raise _ _ _ _ _ (load_project_missing _ _ Hrec)).
Qed.

Lemma main_kept args w : kept w → kept (main args w).2.
Proof.
  intros Hkept. destruct (main_effect args w Hkept)
    as [Heq|(p' & Heq & Hpath & Hsteps & _)];
    intros path doc; rewrite Heq; [by apply Hkept|].
  rewrite lookup_insert. case_decide as Hp.
  - intros [= <-]. subst path. eauto.
  - apply Hkept.
Qed.


Lemma main_extends args w path p :
  kept w → files w !! path = Some (Project.to_dict p) →
  ∃ p', files (main args w).2 !! path = Some (Project.to_dict p')
        ∧ extends p p'.
Proof.
  intros Hkept Hrec. destruct (main_effect args w Hkept)
    as [Heq|(p' & Heq & _ & _ & Hold)]; rewrite Heq.
  { eauto using extends_refl. }
  rewrite lookup_insert. case_decide as Hp; [|eauto using extends_refl].
  subst path. exists p'. split; [done|].
  destruct Hold as [(name & -> & Hnone)|(q & Hq & Hext)].
  - cbn [target] in Hrec. congruence.
  - assert (p = q) as -> by (apply to_dict_inj; congruence). done.
Qed.


(** ** Sessions *)

Lemma boot_kept clock : kept (boot clock).
Proof. intros path doc. cbn. by rewrite lookup_empty. Qed.

Lemma run_cons args session w :
  run (args :: session) w = run session (main args w).2.
Proof. done. Qed.

Lemma run_app s1 s2 w : run (s1 ++ s2) w = run s2 (run s1 w).
Proof. apply foldl_app. Qed.

Lemma run_kept session w : kept w → kept (run session w).
Proof.
  revert w. induction session as [|args session IH]; intros w Hkept; [done|].
  rewrite run_cons. by apply IH, main_kept.
Qed.

Lemma run_extends session w path p :
  kept w → files w !! path = Some (Project.to_dict p) →
  ∃ p', files (run session w) !! path = Some (Project.to_dict p')
        ∧ extends p p'.
Proof.
  revert w p. induction session as [|args session IH]; intros w p Hkept Hrec.
  { eauto using extends_refl. }
  destruct (main_extends args w path p Hkept Hrec) as (q & Hq & Hpq).
  destruct (IH _ q (main_kept args w Hkept) Hq) as (r & Hr & Hqr).
  rewrite run_cons. eauto using extends_trans.
Qed.


(** ** The storage token *)




Lemma rstrip_lstrip s : rstrip (lstrip s) = lstrip (rstrip s).
Proof.
  induction s as [|c s IH]; [done|]. cbn [lstrip rstrip].
  destruct (isspace c) eqn:Hc.
  - rewrite IH. destruct (rstrip s) as [|c' r]; cbn; by rewrite ?Hc.
  - cbn [rstrip]. destruct (rstrip s) as [|c' r]; cbn; by rewrite ?Hc.
Qed.



(** ** Paths of names without a separator *)

Lemma string_length_app s1 s2 :
  String.length (s1 +:+ s2) = String.length s1 + String.length s2.
Proof. induction s1 as [|c s1 IH]; [done|]. exact (f_equal S IH). Qed.

Lemma string_app_inj_l s1 s2 s : s1 +:+ s = s2 +:+ s → s1 = s2.
Proof.
  revert s2. induction s1 as [|c s1 IH]; intros [|d s2] Heq; [done|..].
  - apply (f_equal String.length) in Heq.
    rewrite !string_length_app in Heq. cbn in Heq. lia.
  - apply (f_equal String.length) in Heq.
    rewrite !string_length_app in Heq. cbn in Heq. lia.
  - injection Heq as -> Heq. f_equal. by apply IH.
Qed.

Lemma chars_app s1 s2 :
  list_ascii_of_string (s1 +:+ s2)
  = list_ascii_of_string s1 ++ list_ascii_of_string s2.
Proof.
  induction s1 as [|c s1 IH]; [done|].
  exact (f_equal (cons c) IH).
Qed.

Lemma has_char_json c s :
  c ≠ "."%char → c ≠ "j"%char → c ≠ "s"%char → c ≠ "o"%char → c ≠ "n"%char →
  has_char c (s +:+ ".json") ↔ has_char c s.
Proof.
  intros. unfold has_char. rewrite chars_app, elem_of_app. cbn.
  rewrite !elem_of_cons, elem_of_nil. intuition congruence.
Qed.

Lemma split_sep_plain s : ¬ has_char "/" s → split_sep s = [s].
Proof.
  unfold has_char. induction s as [|c s IH]; [done|]. cbn.
  rewrite not_elem_of_cons. intros [Hc Hs].
  destruct (Ascii.eqb_spec c "/"); [done|]. by rewrite IH.
Qed.

Lemma path_root_plain c s : c ≠ "/"%char → path_root (String c s) = "".
Proof.
  intros Hc. destruct c as [[] [] [] [] [] [] [] []]; try done.
Qed.

Lemma path_join_plain s :
  ¬ has_char "/" s → s ≠ "" → s ≠ "." →
  path_join DATA_DIR s = "data/projects/" +:+ s.
Proof.
  intros Hsep Hempty Hdot. unfold path_join, path_names.
  rewrite (split_sep_plain s Hsep).
  destruct s as [|c s]; [done|].
  rewrite path_root_plain.
  2:{ intros ->. apply Hsep. unfold has_char. cbn. by left. }
  cbn [List.filter]. apply String.eqb_neq in Hdot as ->.
  replace (String c s =? "") with false by done. done.
Qed.

Lemma project_path_plain name :
  ¬ has_char "/" (replace " " "-" (strip name)) →
  project_path name
  = "data/projects/" +:+ replace " " "-" (strip name) +:+ ".json".
Proof.
  intros Hsep. unfold project_path. cbv zeta.
  apply path_join_plain.
  - by rewrite has_char_json.
  - intros Heq. apply (f_equal String.length) in Heq.
    rewrite string_length_app in Heq. cbn in Heq. lia.
  - intros Heq. apply (f_equal String.length) in Heq.
    rewrite string_length_app in Heq. cbn in Heq. lia.
Qed.

Lemma project_path_plain_inj a b :
  ¬ has_char "/" (replace " " "-" (strip a)) →
  ¬ has_char "/" (replace " " "-" (strip b)) →
  project_path a = project_path b →
  replace " " "-" (strip a) = replace " " "-" (strip b).
Proof.
  intros Ha Hb. rewrite !project_path_plain by done. intros Heq.
  apply String.app_inj in Heq. by apply string_app_inj_l in Heq.
Qed.

(** Tactics for the side conditions of the worked examples. *)
Ltac no_such_char :=
  unfold has_char; vm_compute;
  let Hin := fresh "Hin" in
  intros Hin;
  repeat (apply elem_of_cons in Hin as [Hin|Hin]; [discriminate|]);
  by apply elem_of_nil in Hin.

Ltac is_storable :=
  unfold storable, file_name_ok; split_and!;
  [no_such_char | no_such_char | vm_compute; lia].

Ltac all_storable :=
  repeat (apply Forall_cons; split; [cbn [target]; is_storable|]);
  apply Forall_nil_2.

(** ** The properties of the specification *)

(** C1. Serialization round trip: saving any project aggregate and loading
    it again under the project's name gives back an aggregate equal to the one
    saved, field for field: name, type, creation time, and the rules, steps
    and sources in order with all their fields. *)
Theorem save_load_roundtrip (project : Project.t) (w : World) :
  ∃ w', save_project project w = (Ok (), w')
        ∧ load_project (Project.name project) w' = (Ok project, w').
Proof.
  eexists. split; [apply save_project_run|].
  apply load_project_found. cbn. apply lookup_insert_eq.
Qed.

(** C2. Creating a project under a name that has no record and loading it
    gives the seven canonical steps in order, each pending with empty notes,
    the type PIAM&V, and no rules and no sources. *)
Theorem init_then_load (name : string) (w : World) :
  files w !! project_path name = None →
  ∃ w', init_project name w = (Ok (), w')
        ∧ load_project name w'
          = (Ok {| Project.name := name;
                   Project.project_type := "PIAM&V";
                   Project.created_at := clock w (ticks w);
                   Project.rules := [];
                   Project.steps :=
                     [ProjectStep.mk "Project scoping" "pending" "";
                      ProjectStep.mk "Baseline definition" "pending" "";
                      ProjectStep.mk "Measurement & verification plan" "pending" "";
                      ProjectStep.mk "Implementation & commissioning" "pending" "";
                      ProjectStep.mk "Data collection" "pending" "";
                      ProjectStep.mk "Analysis & savings calculation" "pending" "";
                      ProjectStep.mk "Reporting & assurance" "pending" ""];
                   Project.sources := [] |}, w').
Proof.
  intros Hrec. eexists. split; [by apply init_project_fresh|].
  apply load_project_found. cbn. apply lookup_insert_eq.
Qed.

Lemma init_then_load_witness :
  ∃ w', init_project "Acme HQ" (boot example_clock) = (Ok (), w')
        ∧ load_project "Acme HQ" w'
          = (Ok {| Project.name := "Acme HQ";
                   Project.project_type := "PIAM&V";
                   Project.created_at := "2024-05-01T09:00:00";
                   Project.rules := [];
                   Project.steps :=
                     [ProjectStep.mk "Project scoping" "pending" "";
                      ProjectStep.mk "Baseline definition" "pending" "";
                      ProjectStep.mk "Measurement & verification plan" "pending" "";
                      ProjectStep.mk "Implementation & commissioning" "pending" "";
                      ProjectStep.mk "Data collection" "pending" "";
                      ProjectStep.mk "Analysis & savings calculation" "pending" "";
                      ProjectStep.mk "Reporting & assurance" "pending" ""];
                   Project.sources := [] |}, w').
Proof. apply (init_then_load "Acme HQ" (boot example_clock)). reflexivity. Defined.

(** C3. [update_step] changes the first step, in storage order, whose name
    equals the given step name up to case: that step keeps its name, takes
    the given status whatever it was, and takes the given notes only when
    they are not empty, keeping its notes otherwise. *)
Theorem update_step_first_match
    (project step status : string) (notes : option string)
    (p : Project.t) (pre : list ProjectStep.t) (s : ProjectStep.t)
    (post : list ProjectStep.t) (w : World) :
  files w !! project_path project = Some (Project.to_dict p) →
  project_path (Project.name p) = project_path project →
  Project.steps p = pre ++ s :: post →
  Forall (λ x, lower (ProjectStep.name x) ≠ lower step) pre →
  lower (ProjectStep.name s) = lower step →
  ∃ w' s',
    update_step project step status notes w = (Ok (), w')
    ∧ load_project project w'
      = (Ok {| Project.name := Project.name p;
               Project.project_type := Project.project_type p;
               Project.created_at := Project.created_at p;
               Project.rules := Project.rules p;
               Project.steps := pre ++ s' :: post;
               Project.sources := Project.sources p |}, w')
    ∧ ProjectStep.name s' = ProjectStep.name s
    ∧ ProjectStep.status s' = status
    ∧ (∀ n, notes = Some n → n ≠ "" → ProjectStep.notes s' = n)
    ∧ (notes = None ∨ notes = Some "" →
       ProjectStep.notes s' = ProjectStep.notes s).
Proof.
  intros Hrec Hpath Hsteps Hpre Hs.
  eexists _, (ProjectStep.mk (ProjectStep.name s) status
                (py_or notes (ProjectStep.notes s))).
  split; [by apply (update_step_match _ _ _ _ p pre s post)|].
  split_and!; try done.
  - apply load_project_found. cbn. rewrite Hpath. apply lookup_insert_eq.
  - intros n -> Hn. by destruct n.
  - by intros [->| ->].
Qed.

Lemma update_step_first_match_witness :
  ∃ w' s',
    update_step "Acme HQ" "baseline definition" "complete" None
      (run [Init "Acme HQ"] (boot example_clock)) = (Ok (), w')
    ∧ load_project "Acme HQ" w'
      = (Ok {| Project.name := "Acme HQ";
               Project.project_type := "PIAM&V";
               Project.created_at := "2024-05-01T09:00:00";
               Project.rules := [];
               Project.steps :=
                 [ProjectStep.mk "Project scoping" "pending" ""]
                 ++ s'
                 :: map (λ step, ProjectStep.mk step "pending" "")
                      (drop 2 DEFAULT_PIAMV_STEPS);
               Project.sources := [] |}, w')
    ∧ ProjectStep.name s' = "Baseline definition"
    ∧ ProjectStep.status s' = "complete"
    ∧ (∀ n, @None string = Some n → n ≠ "" → ProjectStep.notes s' = n)
    ∧ (@None string = None ∨ None = Some "" → ProjectStep.notes s' = "").
Proof.
  apply (update_step_first_match "Acme HQ" "baseline definition" "complete" None
           (new_project "Acme HQ" "2024-05-01T09:00:00")
           [ProjectStep.mk "Project scoping" "pending" ""]
           (ProjectStep.mk "Baseline definition" "pending" "")
           (map (λ step, ProjectStep.mk step "pending" "")
              (drop 2 DEFAULT_PIAMV_STEPS))).
  - reflexivity.
  - reflexivity.
  - reflexivity.
  - constructor; [|constructor]. vm_compute. discriminate.
  - reflexivity.
Defined.

(** C4. When no step's name equals the given step name up to case,
    [update_step] ends with the step-not-found exit, whose message lists the
    project's step names in order, and the world is as it was: nothing is
    written, so the record is the same after the call as before. *)
Theorem update_step_no_match
    (project step status : string) (notes : option string)
    (p : Project.t) (w : World) :
  files w !! project_path project = Some (Project.to_dict p) →
  Forall (λ x, lower (ProjectStep.name x) ≠ lower step) (Project.steps p) →
  update_step project step status notes w
  = (Raise (SystemExit
              ("Step '" +:+ step +:+ "' not found. Available steps: "
               +:+ join ", " (map ProjectStep.name (Project.steps p)))), w).
Proof. apply update_step_miss. Qed.

Lemma update_step_no_match_witness :
  update_step "Acme HQ" "Metering" "complete" (Some "started")
    (run [Init "Acme HQ"] (boot example_clock))
  = (Raise (SystemExit
              ("Step 'Metering' not found. Available steps: "
               +:+ "Project scoping, Baseline definition, "
               +:+ "Measurement & verification plan, "
               +:+ "Implementation & commissioning, Data collection, "
               +:+ "Analysis & savings calculation, Reporting & assurance")),
     run [Init "Acme HQ"] (boot example_clock)).
Proof.
  apply (update_step_no_match "Acme HQ" "Metering" "complete" (Some "started")
           (new_project "Acme HQ" "2024-05-01T09:00:00")).
  - reflexivity.
  - repeat constructor; vm_compute; discriminate.
Defined.



(** C6. Creating a project whose record is already there ends with the
    already-exists exit and leaves the world as it was: the check comes
    before any write, so the record is unchanged. *)
Theorem init_project_existing (name : string) (w : World) :
  is_Some (files w !! project_path name) →
  init_project name w
  = (Raise (SystemExit ("Project '" +:+ name +:+ "' already exists.")), w).
Proof. apply init_project_taken. Qed.

Lemma init_project_existing_witness :
  init_project "Acme HQ" (run [Init "Acme HQ"] (boot example_clock))
  = (Raise (SystemExit "Project 'Acme HQ' already exists."),
     run [Init "Acme HQ"] (boot example_clock)).
Proof.
  apply (init_project_existing "Acme HQ"
           (run [Init "Acme HQ"] (boot example_clock))).
  eexists. reflexivity.
Defined.

(** C7. Invariants of the store over any session.  A project that is on
    record at some point is still on record after any further invocations,
    with the same name, type and creation time; its steps are the seven
    canonical ones before and after, same names in the same order; its rules
    and its sources are the earlier ones, unchanged, followed by the ones
    added since, so neither list gets shorter and no time stamp of a rule or
    a source is edited. *)
Theorem session_invariants
    (clock : nat → string) (before after : list command)
    (path : string) (p : Project.t) :
  files (run before (boot clock)) !! path = Some (Project.to_dict p) →
  ∃ p',
    files (run after (run before (boot clock))) !! path
    = Some (Project.to_dict p')
    ∧ map ProjectStep.name (Project.steps p)
      = ["Project scoping"; "Baseline definition";
         "Measurement & verification plan"; "Implementation & commissioning";
         "Data collection"; "Analysis & savings calculation";
         "Reporting & assurance"]
    ∧ map ProjectStep.name (Project.steps p')
      = map ProjectStep.name (Project.steps p)
    ∧ (∃ added, Project.rules p' = Project.rules p ++ added)
    ∧ (∃ added, Project.sources p' = Project.sources p ++ added)
    ∧ (List.length (Project.rules p) ≤ List.length (Project.rules p'))%nat
    ∧ (List.length (Project.sources p) ≤ List.length (Project.sources p'))%nat
    ∧ Project.created_at p' = Project.created_at p
    ∧ Project.name p' = Project.name p
    ∧ Project.project_type p' = Project.project_type p.
Proof.
  intros Hrec.
  pose proof (run_kept before _ (boot_kept clock)) as Hkept.
  destruct (run_extends after _ path p Hkept Hrec)
    as (p' & Hrec' & Hname & Htype & Hcreated & Hsteps & Hrules & Hsources).
  destruct (Hkept _ _ Hrec) as (q & Hq & _ & Hcanon).
  apply to_dict_inj in Hq. subst q.
  exists p'. split_and!; try done.
  - by apply prefix_length.
  - by apply prefix_length.
Qed.

Lemma session_invariants_witness :
  ∃ p',
    files (run [AddRule "Acme-HQ" "IPMVP" "Baseline Period" "Define baseline..."
                  None (Some "12");
                Step "Acme HQ" "reporting & assurance" complete (Some "signed");
                Init "Acme HQ"]
             (run [Init "Acme HQ"; AddSource "Acme HQ" "IPMVP 2018" "docs/ipmvp.pdf" None]
                (boot example_clock))) !! "data/projects/Acme-HQ.json"
    = Some (Project.to_dict p')
    ∧ map ProjectStep.name
        (map (λ step, ProjectStep.mk step "pending" "") DEFAULT_PIAMV_STEPS)
      = ["Project scoping"; "Baseline definition";
         "Measurement & verification plan"; "Implementation & commissioning";
         "Data collection"; "Analysis & savings calculation";
         "Reporting & assurance"]
    ∧ map ProjectStep.name (Project.steps p')
      = map ProjectStep.name
          (map (λ step, ProjectStep.mk step "pending" "") DEFAULT_PIAMV_STEPS)
    ∧ (∃ added, Project.rules p' = [] ++ added)
    ∧ (∃ added,
         Project.sources p'
         = [SourceDocument.mk "IPMVP 2018" "docs/ipmvp.pdf" ""
              "2024-05-01T09:00:01"] ++ added)
    ∧ (0 ≤ List.length (Project.rules p'))%nat
    ∧ (1 ≤ List.length (Project.sources p'))%nat
    ∧ Project.created_at p' = "2024-05-01T09:00:00"
    ∧ Project.name p' = "Acme HQ"
    ∧ Project.project_type p' = "PIAM&V".
Proof.
  apply (session_invariants example_clock
           [Init "Acme HQ"; AddSource "Acme HQ" "IPMVP 2018" "docs/ipmvp.pdf" None]
           [AddRule "Acme-HQ" "IPMVP" "Baseline Period" "Define baseline..."
              None (Some "12");
            Step "Acme HQ" "reporting & assurance" complete (Some "signed");
            Init "Acme HQ"]
           "data/projects/Acme-HQ.json"
           (Project.mk "Acme HQ" "PIAM&V" "2024-05-01T09:00:00" []
              (map (λ step, ProjectStep.mk step "pending" "") DEFAULT_PIAMV_STEPS)
              [SourceDocument.mk "IPMVP 2018" "docs/ipmvp.pdf" ""
                 "2024-05-01T09:00:01"])).
  reflexivity.
Defined.





(** C10. The mapping from names to paths is not injective: [Acme HQ] and
    [Acme-HQ] share a path, and so do names that differ in leading or
    trailing whitespace.  Whenever two names share a path and the first is
    created, creating the second ends with the already-exists exit, loading
    the second returns the project created under the first, and adding a
    rule, adding a source or updating a step under the second changes the
    record the first name loads. *)
Theorem project_path_not_injective :
  ("Acme HQ" ≠ "Acme-HQ" ∧ project_path "Acme HQ" = project_path "Acme-HQ")
  ∧ ("Acme" ≠ " Acme " ∧ project_path "Acme" = project_path " Acme ")
  ∧ ∀ a b w,
      project_path a = project_path b →
      files w !! project_path a = None →
      ∃ w1,
        init_project a w = (Ok (), w1)
        ∧ init_project b w1
          = (Raise (SystemExit ("Project '" +:+ b +:+ "' already exists.")), w1)
        ∧ load_project b w1 = (Ok (new_project a (clock w (ticks w))), w1)
        ∧ (∀ source title text section page,
             ∃ w2 rule,
               add_rule b source title text section page w1 = (Ok (), w2)
               ∧ load_project a w2
                 = (Ok (Project.set_rules (new_project a (clock w (ticks w)))
                          [rule]), w2))
        ∧ (∀ name path notes,
             ∃ w2 source,
               add_source b name path notes w1 = (Ok (), w2)
               ∧ load_project a w2
                 = (Ok (Project.set_sources (new_project a (clock w (ticks w)))
                          [source]), w2))
        ∧ (∀ status notes,
             ∃ w2 p,
               update_step b "project scoping" status notes w1 = (Ok (), w2)
               ∧ load_project a w2 = (Ok p, w2)
               ∧ Project.steps p !! 0
                 = Some (ProjectStep.mk "Project scoping" status
                           (py_or notes ""))).
Proof.
  split_and!; [done|reflexivity|done|reflexivity|].
  intros a b w Hab Hrec.
  set (p0 := new_project a (clock w (ticks w))).
  eexists. split; [by apply init_project_fresh|].
  match goal with |- context [init_project b ?w] => set (w1 := w) end.
  assert (files w1 !! project_path b = Some (Project.to_dict p0)) as Hb.
  { subst w1. cbn. rewrite <-Hab. apply lookup_insert_eq. }
  split_and!.
  - apply init_project_taken. eauto.
  - by apply load_project_found.
  - intros source title text section page. eexists _, _.
    split; [by apply (add_rule_run _ _ _ _ _ _ p0)|].
    apply load_project_found. cbn. apply lookup_insert_eq.
  - intros name path notes. eexists _, _.
    split; [by apply (add_source_run _ _ _ _ p0)|].
    apply load_project_found. cbn. apply lookup_insert_eq.
  - intros status notes. eexists _, _. split_and!.
    + apply (update_step_match _ _ _ _ p0 []
               (ProjectStep.mk "Project scoping" "pending" "")); try done.
    + apply load_project_found. cbn. apply lookup_insert_eq.
    + done.
Qed.

Lemma project_path_not_injective_witness :
  ∃ w1,
    init_project "Acme HQ" (boot example_clock) = (Ok (), w1)
    ∧ init_project "Acme-HQ" w1
      = (Raise (SystemExit "Project 'Acme-HQ' already exists."), w1)
    ∧ load_project "Acme-HQ" w1
      = (Ok (new_project "Acme HQ" "2024-05-01T09:00:00"), w1).
Proof.
  destruct project_path_not_injective as (_ & _ & Hshared).
  destruct (Hshared "Acme HQ" "Acme-HQ" (boot example_clock))
    as (w1 & Hinit & Hexists & Hload & _); [reflexivity..|].
  exists w1. split_and!; assumption.
Defined.

(** ** Further properties of the commands *)

(** X1. Adding a rule to a project on record appends it at the tail of the
    rules: the rule has the given source, title and text, the given section
    and page or the empty string when the flag is absent, and the clock
    reading as its time stamp.  Everything else in the project and every
    other file is as before; one line is printed and the clock is read
    once. *)
Theorem add_rule_appends
    (project source title text : string) (section page : option string)
    (p : Project.t) (w : World) :
  files w !! project_path project = Some (Project.to_dict p) →
  project_path (Project.name p) = project_path project →
  ∃ w',
    add_rule project source title text section page w = (Ok (), w')
    ∧ load_project project w'
      = (Ok {| Project.name := Project.name p;
               Project.project_type := Project.project_type p;
               Project.created_at := Project.created_at p;
               Project.rules :=
                 Project.rules p
                 ++ [Rule.mk source title text (default "" section)
                             (default "" page) (clock w (ticks w))];
               Project.steps := Project.steps p;
               Project.sources := Project.sources p |}, w')
    ∧ stdout w'
      = stdout w ++ ["Added rule '" +:+ title +:+ "' from " +:+ source +:+ "."]
    ∧ ticks w' = S (ticks w)
    ∧ (∀ path, path ≠ project_path project →
               files w' !! path = files w !! path).
Proof.
  intros Hrec Hpath. eexists.
  split; [by apply (add_rule_run _ _ _ _ _ _ p)|]. rewrite Hpath.
  split_and!; try done.
  - apply load_project_found. cbn. rewrite lookup_insert_eq.
    do 2 f_equal. unfold Project.set_rules. do 3 f_equal.
    by destruct section as [[|]|], page as [[|]|].
  - intros path Hne. cbn. by rewrite lookup_insert_ne.
Qed.

Lemma add_rule_appends_witness :
  ∃ w',
    add_rule "Acme HQ" "IPMVP" "Baseline Period" "Define baseline..."
      None (Some "12") (run [Init "Acme HQ"] (boot example_clock)) = (Ok (), w')
    ∧ load_project "Acme HQ" w'
      = (Ok {| Project.name := "Acme HQ";
               Project.project_type := "PIAM&V";
               Project.created_at := "2024-05-01T09:00:00";
               Project.rules :=
                 [] ++ [Rule.mk "IPMVP" "Baseline Period" "Define baseline..."
                          "" "12" "2024-05-01T09:00:01"];
               Project.steps :=
                 map (λ step, ProjectStep.mk step "pending" "")
                   DEFAULT_PIAMV_STEPS;
               Project.sources := [] |}, w')
    ∧ stdout w'
      = ["Initialized project 'Acme HQ' with 7 steps."]
        ++ ["Added rule 'Baseline Period' from IPMVP."]
    ∧ ticks w' = 2
    ∧ (∀ path, path ≠ project_path "Acme HQ" →
               files w' !! path
               = files (run [Init "Acme HQ"] (boot example_clock)) !! path).
Proof.
  apply (add_rule_appends "Acme HQ" "IPMVP" "Baseline Period"
           "Define baseline..." None (Some "12")
           (new_project "Acme HQ" "2024-05-01T09:00:00")
           (run [Init "Acme HQ"] (boot example_clock))); reflexivity.
Defined.

(** X2. Adding a source document to a project on record appends it at the
    tail of the sources, with the given name and path, the given notes or
    the empty string, and the clock reading as its time stamp; the rest of
    the project and every other file is as before. *)
Theorem add_source_appends
    (project name path : string) (notes : option string)
    (p : Project.t) (w : World) :
  files w !! project_path project = Some (Project.to_dict p) →
  project_path (Project.name p) = project_path project →
  ∃ w',
    add_source project name path notes w = (Ok (), w')
    ∧ load_project project w'
      = (Ok {| Project.name := Project.name p;
               Project.project_type := Project.project_type p;
               Project.created_at := Project.created_at p;
               Project.rules := Project.rules p;
               Project.steps := Project.steps p;
               Project.sources :=
                 Project.sources p
                 ++ [SourceDocument.mk name path (default "" notes)
                                       (clock w (ticks w))] |}, w')
    ∧ stdout w'
      = stdout w ++ ["Added source '" +:+ name +:+ "' at " +:+ path +:+ "."]
    ∧ ticks w' = S (ticks w)
    ∧ (∀ other, other ≠ project_path project →
                files w' !! other = files w !! other).
Proof.
  intros Hrec Hpath. eexists.
  split; [by apply (add_source_run _ _ _ _ p)|]. rewrite Hpath.
  split_and!; try done.
  - apply load_project_found. cbn. rewrite lookup_insert_eq.
    do 2 f_equal. unfold Project.set_sources. do 3 f_equal.
    by destruct notes as [[|]|].
  - intros other Hne. cbn. by rewrite lookup_insert_ne.
Qed.

Lemma add_source_appends_witness :
  ∃ w',
    add_source "Acme HQ" "IPMVP 2018" "docs/ipmvp.pdf" (Some "")
      (run [Init "Acme HQ"] (boot example_clock)) = (Ok (), w')
    ∧ load_project "Acme HQ" w'
      = (Ok {| Project.name := "Acme HQ";
               Project.project_type := "PIAM&V";
               Project.created_at := "2024-05-01T09:00:00";
               Project.rules := [];
               Project.steps :=
                 map (λ step, ProjectStep.mk step "pending" "")
                   DEFAULT_PIAMV_STEPS;
               Project.sources :=
                 [] ++ [SourceDocument.mk "IPMVP 2018" "docs/ipmvp.pdf" ""
                          "2024-05-01T09:00:01"] |}, w')
    ∧ stdout w'
      = ["Initialized project 'Acme HQ' with 7 steps."]
        ++ ["Added source 'IPMVP 2018' at docs/ipmvp.pdf."]
    ∧ ticks w' = 2
    ∧ (∀ other, other ≠ project_path "Acme HQ" →
                files w' !! other
                = files (run [Init "Acme HQ"] (boot example_clock)) !! other).
Proof.
  apply (add_source_appends "Acme HQ" "IPMVP 2018" "docs/ipmvp.pdf" (Some "")
           (new_project "Acme HQ" "2024-05-01T09:00:00")
           (run [Init "Acme HQ"] (boot example_clock))); reflexivity.
Defined.

Lemma main_missing (args : command) (w : World) :
  (∀ name, args ≠ Init name) →
  files w !! project_path (target args) = None →
  main args w
  = (Raise (SystemExit ("Project '" +:+ target args +:+ "' not found at "
                        +:+ project_path (target args) +:+ ".")), w).
Proof.
  intros Hinit Hrec.
  destruct args; cbn [main target] in *; [by destruct (Hinit name)|..];
    by apply bind_raise, load_project_missing.
Qed.



(** X4. Creating a project under a free path, for a name the file system
    takes, writes exactly one new file, at that path; it reads the clock
    once and prints one line that tells the name and the number of steps,
    seven. *)
Theorem init_project_effect (name : string) (w : World) :
  storable name →
  files w !! project_path name = None →
  ∃ w',
    init_project name w = (Ok (), w')
    ∧ dom (files w') = {[project_path name]} ∪ dom (files w)
    ∧ (∀ path, path ≠ project_path name → files w' !! path = files w !! path)
    ∧ stdout w'
      = stdout w ++ ["Initialized project '" +:+ name +:+ "' with 7 steps."]
    ∧ ticks w' = S (ticks w).
Proof.
  intros _ Hrec. eexists. split; [by apply init_project_fresh|].
  split_and!; try done.
  - cbn. apply dom_insert_L.
  - intros path Hne. cbn. by rewrite lookup_insert_ne.
Qed.

Lemma init_project_effect_witness :
  ∃ w',
    init_project "Plant B" (run [Init "Acme HQ"] (boot example_clock))
    = (Ok (), w')
    ∧ dom (files w')
      = {[project_path "Plant B"]}
        ∪ dom (files (run [Init "Acme HQ"] (boot example_clock)))
    ∧ (∀ path, path ≠ project_path "Plant B" →
               files w' !! path
               = files (run [Init "Acme HQ"] (boot example_clock)) !! path)
    ∧ stdout w'
      = ["Initialized project 'Acme HQ' with 7 steps."]
        ++ ["Initialized project 'Plant B' with 7 steps."]
    ∧ ticks w' = 2.
Proof.
  apply (init_project_effect "Plant B"
           (run [Init "Acme HQ"] (boot example_clock))).
  - is_storable.
  - reflexivity.
Defined.

(** ** The commands that print *)

Lemma with_lines_nil w : with_lines [] w = w.
Proof. destruct w. unfold with_lines. cbn. by rewrite app_nil_r. Qed.

Lemma with_lines_app l1 l2 w :
  with_lines l2 (with_lines l1 w) = with_lines (l1 ++ l2) w.
Proof. unfold with_lines. cbn. by rewrite app_assoc. Qed.

Lemma prints_print line : prints (print line) [line].
Proof. done. Qed.

Lemma prints_bind (m k : M unit) l1 l2 :
  prints m l1 → prints k l2 → prints (bind m (λ _, k)) (l1 ++ l2).
Proof.
  intros Hm Hk w. by rewrite (bind_ok _ _ _ _ _ (Hm w)), Hk, with_lines_app.
Qed.

Lemma prints_for_each {A} (body : A → M unit) (f : A → string) l :
  (∀ x, prints (body x) [f x]) → prints (for_each body l) (map f l).
Proof.
  intros Hbody. induction l as [|x l IH].
  - intros w. by rewrite with_lines_nil.
  - cbn [for_each map]. by apply (prints_bind _ _ [f x]).
Qed.

Lemma enumerate_imap {A B} (g : nat → A → B) n (l : list A) :
  map (λ '(i, x), g i x) (enumerate n l) = imap (λ i x, g (n + i) x) l.
Proof.
  revert n. induction l as [|x l IH]; intros n; [done|].
  cbn [enumerate map imap]. rewrite Nat.add_0_r, IH. f_equal.
  apply imap_ext. intros i y _. cbn. f_equal. lia.
Qed.

Lemma string_app_assoc (s1 s2 s3 : string) :
  (s1 +:+ s2) +:+ s3 = s1 +:+ (s2 +:+ s3).
Proof.
  induction s1 as [|c s1 IH]; [done|]. exact (f_equal (String c) IH).
Qed.

Lemma list_rules_run project p w :
  files w !! project_path project = Some (Project.to_dict p) →
  list_rules project w
  = (Ok (),
     with_lines
       match Project.rules p with
       | [] => ["No rules attached yet."]
       | rules => imap (λ i rule, rule_entry (S i) rule) rules
       end w).
Proof.
  intros Hrec. unfold list_rules.
  rewrite (bind_ok _ _ _ _ _ (load_project_found _ _ _ Hrec)).
  destruct (Project.rules p) as [|r rs] eqn:Hrules; [done|].
  replace (imap _ (r :: rs))
    with (map (λ '(i, rule), rule_entry i rule) (enumerate 1 (r :: rs)))
    by apply (enumerate_imap rule_entry 1).
  apply prints_for_each. intros [idx rule] w0. unfold rule_entry.
  destruct (Rule.section rule), (Rule.page rule); try reflexivity.
  cbn [truthy List.app join]. by rewrite !string_app_assoc.
Qed.

Lemma list_sources_run project p w :
  files w !! project_path project = Some (Project.to_dict p) →
  list_sources project w
  = (Ok (),
     with_lines
       match Project.sources p with
       | [] => ["No sources attached yet."]
       | sources => imap (λ i source, source_entry (S i) source) sources
       end w).
Proof.
  intros Hrec. unfold list_sources.
  rewrite (bind_ok _ _ _ _ _ (load_project_found _ _ _ Hrec)).
  destruct (Project.sources p) as [|s ss] eqn:Hsources; [done|].
  replace (imap _ (s :: ss))
    with (map (λ '(i, source), source_entry i source) (enumerate 1 (s :: ss)))
    by apply (enumerate_imap source_entry 1).
  apply prints_for_each. intros [idx source] w0. unfold source_entry.
  by destruct (SourceDocument.notes source).
Qed.

Lemma show_project_run project p w :
  files w !! project_path project = Some (Project.to_dict p) →
  show_project project w = (Ok (), with_lines (summary p) w).
Proof.
  intros Hrec. unfold show_project.
  rewrite (bind_ok _ _ _ _ _ (load_project_found _ _ _ Hrec)).
  match goal with
  | |- ?m w = _ => cut (prints m (summary p)); [intros Hp; apply Hp|]
  end.
  unfold summary.
  do 4 (apply (prints_bind _ _ [_]); [apply prints_print|]).
  apply prints_bind.
  { apply prints_for_each. intros step w0. by destruct (ProjectStep.notes step). }
  apply (prints_bind _ _ [_]); [apply prints_print|].
  apply prints_bind.
  { destruct (Project.rules p) as [|r rs]; [apply prints_print|].
    by apply prints_for_each. }
  apply (prints_bind _ _ [_]); [apply prints_print|].
  destruct (Project.sources p) as [|s ss]; [apply prints_print|].
  apply prints_for_each. intros source w0.
  by destruct (SourceDocument.notes source).
Qed.

(** X5. Listing the rules of a project on record prints the placeholder
    when there are none, and otherwise one entry per rule, in stored order
    and numbered from 1, each with the source in brackets, the title, the
    section and page that are not empty, and the text on the next line.
    Nothing but the output changes. *)
Theorem list_rules_output (project : string) (p : Project.t) (w : World) :
  files w !! project_path project = Some (Project.to_dict p) →
  ∃ w',
    list_rules project w = (Ok (), w')
    ∧ stdout w'
      = stdout w
        ++ match Project.rules p with
           | [] => ["No rules attached yet."]
           | rules => imap (λ i rule, rule_entry (S i) rule) rules
           end
    ∧ files w' = files w ∧ ticks w' = ticks w ∧ clock w' = clock w.
Proof. intros Hrec. eexists. by split; [apply list_rules_run|]. Qed.

Lemma list_rules_output_witness :
  ∃ w',
    list_rules "Acme HQ"
      (run [Init "Acme HQ";
            AddRule "Acme HQ" "IPMVP" "Baseline Period" "Define baseline..."
              None (Some "12");
            AddRule "Acme HQ" "NSW" "Metering" "Meter all loads."
              (Some "4.2") (Some "7")]
         (boot example_clock)) = (Ok (), w')
    ∧ stdout w'
      = ["Initialized project 'Acme HQ' with 7 steps.";
         "Added rule 'Baseline Period' from IPMVP.";
         "Added rule 'Metering' from NSW."]
        ++ ["1. [IPMVP] Baseline Period (page: 12)" +:+ nl
            +:+ "   Define baseline...";
            "2. [NSW] Metering (section: 4.2, page: 7)" +:+ nl
            +:+ "   Meter all loads."]
    ∧ files w'
      = files (run [Init "Acme HQ";
                    AddRule "Acme HQ" "IPMVP" "Baseline Period"
                      "Define baseline..." None (Some "12");
                    AddRule "Acme HQ" "NSW" "Metering" "Meter all loads."
                      (Some "4.2") (Some "7")]
                 (boot example_clock))
    ∧ ticks w' = 3 ∧ clock w' = example_clock.
Proof.
  apply (list_rules_output "Acme HQ"
           (Project.mk "Acme HQ" "PIAM&V" "2024-05-01T09:00:00"
              [Rule.mk "IPMVP" "Baseline Period" "Define baseline..." "" "12"
                 "2024-05-01T09:00:01";
               Rule.mk "NSW" "Metering" "Meter all loads." "4.2" "7"
                 "2024-05-01T09:00:02"]
              (map (λ step, ProjectStep.mk step "pending" "")
                 DEFAULT_PIAMV_STEPS) [])).
  reflexivity.
Defined.

(** X6. Listing the sources of a project on record prints the placeholder
    when there are none, and otherwise one entry per source, in stored order
    and numbered from 1: name, path, and the notes in parentheses when there
    are any.  Nothing but the output changes. *)
Theorem list_sources_output (project : string) (p : Project.t) (w : World) :
  files w !! project_path project = Some (Project.to_dict p) →
  ∃ w',
    list_sources project w = (Ok (), w')
    ∧ stdout w'
      = stdout w
        ++ match Project.sources p with
           | [] => ["No sources attached yet."]
           | sources => imap (λ i source, source_entry (S i) source) sources
           end
    ∧ files w' = files w ∧ ticks w' = ticks w ∧ clock w' = clock w.
Proof. intros Hrec. eexists. by split; [apply list_sources_run|]. Qed.

Lemma list_sources_output_witness :
  ∃ w',
    list_sources "Acme HQ"
      (run [Init "Acme HQ";
            AddSource "Acme HQ" "IPMVP 2018" "docs/ipmvp.pdf" None;
            AddSource "Acme HQ" "Audit" "docs/audit.pdf" (Some "draft")]
         (boot example_clock)) = (Ok (), w')
    ∧ stdout w'
      = ["Initialized project 'Acme HQ' with 7 steps.";
         "Added source 'IPMVP 2018' at docs/ipmvp.pdf.";
         "Added source 'Audit' at docs/audit.pdf."]
        ++ ["1. IPMVP 2018: docs/ipmvp.pdf";
            "2. Audit: docs/audit.pdf (draft)"]
    ∧ files w'
      = files (run [Init "Acme HQ";
                    AddSource "Acme HQ" "IPMVP 2018" "docs/ipmvp.pdf" None;
                    AddSource "Acme HQ" "Audit" "docs/audit.pdf" (Some "draft")]
                 (boot example_clock))
    ∧ ticks w' = 3 ∧ clock w' = example_clock.
Proof.
  apply (list_sources_output "Acme HQ"
           (Project.mk "Acme HQ" "PIAM&V" "2024-05-01T09:00:00" []
              (map (λ step, ProjectStep.mk step "pending" "")
                 DEFAULT_PIAMV_STEPS)
              [SourceDocument.mk "IPMVP 2018" "docs/ipmvp.pdf" ""
                 "2024-05-01T09:00:01";
               SourceDocument.mk "Audit" "docs/audit.pdf" "draft"
                 "2024-05-01T09:00:02"])).
  reflexivity.
Defined.

(** X7. Showing a project on record prints its summary: name, type and
    creation time, then every step with its status and its notes when there
    are any, then the rules and the sources, each list replaced by the line
    [- None] when it is empty.  Nothing but the output changes. *)
Theorem show_project_output (project : string) (p : Project.t) (w : World) :
  files w !! project_path project = Some (Project.to_dict p) →
  ∃ w',
    show_project project w = (Ok (), w')
    ∧ stdout w' = stdout w ++ summary p
    ∧ files w' = files w ∧ ticks w' = ticks w ∧ clock w' = clock w.
Proof. intros Hrec. eexists. by split; [apply show_project_run|]. Qed.

Lemma show_project_output_witness :
  ∃ w',
    show_project "Acme HQ"
      (run [Init "Acme HQ"; Step "Acme HQ" "project scoping" complete None]
         (boot example_clock)) = (Ok (), w')
    ∧ stdout w'
      = ["Initialized project 'Acme HQ' with 7 steps.";
         "Updated step 'Project scoping' to status 'complete'."]
        ++ ["Project: Acme HQ"; "Type: PIAM&V"; "Created: 2024-05-01T09:00:00";
            nl +:+ "Steps:";
            "- Project scoping: complete";
            "- Baseline definition: pending";
            "- Measurement & verification plan: pending";
            "- Implementation & commissioning: pending";
            "- Data collection: pending";
            "- Analysis & savings calculation: pending";
            "- Reporting & assurance: pending";
            nl +:+ "Rules:"; "- None";
            nl +:+ "Sources:"; "- None"]
    ∧ files w'
      = files (run [Init "Acme HQ";
                    Step "Acme HQ" "project scoping" complete None]
                 (boot example_clock))
    ∧ ticks w' = 1 ∧ clock w' = example_clock.
Proof.
  apply (show_project_output "Acme HQ"
           (Project.mk "Acme HQ" "PIAM&V" "2024-05-01T09:00:00" []
              (ProjectStep.mk "Project scoping" "complete" ""
               :: map (λ step, ProjectStep.mk step "pending" "")
                    (drop 1 DEFAULT_PIAMV_STEPS)) [])).
  reflexivity.
Defined.

(** X8. Loading, listing and showing never write a file, whatever the
    files hold: also on a record the program did not write, where loading
    raises or fills in defaults, the files are the same afterwards. *)
Theorem read_only_commands_write_nothing (project : string) (w : World) :
  files (load_project project w).2 = files w
  ∧ files (list_rules project w).2 = files w
  ∧ files (list_sources project w).2 = files w
  ∧ files (show_project project w).2 = files w.
Proof.
  split_and!.
  - apply quiet_load_project.
  - apply quiet_list_rules.
  - apply quiet_list_sources.
  - apply quiet_show_project.
Qed.

Lemma main_failure args w e w' :
  kept w → main args w = (Raise e, w') →
  w' = w
  ∧ ((∃ name, args = Init name
              ∧ e = SystemExit ("Project '" +:+ name +:+ "' already exists."))
     ∨ e = SystemExit ("Project '" +:+ target args +:+ "' not found at "
                       +:+ project_path (target args) +:+ ".")
     ∨ (∃ project step status notes p,
          args = Step project step status notes
          ∧ files w !! project_path project = Some (Project.to_dict p)
          ∧ e = SystemExit
                  ("Step '" +:+ step +:+ "' not found. Available steps: "
                   +:+ join ", " (map ProjectStep.name (Project.steps p))))).
Proof.
  intros Hkept Hrun.
  destruct (files w !! project_path (target args)) as [doc|] eqn:Hrec.
  - destruct (Hkept _ _ Hrec) as (p & -> & Hpath & Hsteps).
    destruct args; cbn [main target] in *.
    + rewrite init_project_taken in Hrun by eauto.
      injection Hrun as <- <-. eauto.
    + by rewrite (add_rule_run _ _ _ _ _ _ _ _ Hrec) in Hrun.
    + by rewrite (list_rules_run _ _ _ Hrec) in Hrun.
    + by rewrite (add_source_run _ _ _ _ _ _ Hrec) in Hrun.
    + by rewrite (list_sources_run _ _ _ Hrec) in Hrun.
    + destruct (first_match step (Project.steps p))
        as [Hno|(pre & s & post & Hsplit & Hpre & Hs)].
      * rewrite (update_step_miss _ _ _ _ _ _ Hrec Hno) in Hrun.
        injection Hrun as <- <-. split; [done|]. right. right.
        by eexists _, _, _, _, _.
      * by rewrite (update_step_match _ _ _ _ _ _ _ _ _ Hrec Hsplit Hpre Hs)
          in Hrun.
    + by rewrite (show_project_run _ _ _ Hrec) in Hrun.
  - destruct args;
      [cbn [main target] in *;
       by rewrite (init_project_fresh _ _ Hrec) in Hrun|..];
      (rewrite main_missing in Hrun by done); injection Hrun as <- <-; auto.
Qed.

(** X9. A command that fails leaves no trace.  In the world left by a
    session whose names the file system takes, an invocation with such a name
    that ends with an exception has written, printed and read nothing, and
    the exception is one of the three exits: the project exists already, the
    project is not found, or the step is not found, with the step names of
    the project on record. *)
Theorem failed_command_changes_nothing
    (readings : nat → string) (session : list command) (args : command)
    (e : exn) (w' : World) :
  Forall (λ earlier, storable (target earlier)) session →
  storable (target args) →
  main args (run session (boot readings)) = (Raise e, w') →
  w' = run session (boot readings)
  ∧ ((∃ name, args = Init name
              ∧ e = SystemExit ("Project '" +:+ name +:+ "' already exists."))
     ∨ e = SystemExit ("Project '" +:+ target args +:+ "' not found at "
                       +:+ project_path (target args) +:+ ".")
     ∨ (∃ project step status notes p,
          args = Step project step status notes
          ∧ files (run session (boot readings)) !! project_path project
            = Some (Project.to_dict p)
          ∧ e = SystemExit
                  ("Step '" +:+ step +:+ "' not found. Available steps: "
                   +:+ join ", " (map ProjectStep.name (Project.steps p))))).
Proof. intros _ _. apply main_failure, run_kept, boot_kept. Qed.

Lemma failed_command_changes_nothing_witness :
  run [Init "Acme HQ"] (boot example_clock)
  = run [Init "Acme HQ"] (boot example_clock)
  ∧ ((∃ name, Init "Acme-HQ" = Init name
              ∧ SystemExit "Project 'Acme-HQ' already exists."
                = SystemExit ("Project '" +:+ name +:+ "' already exists."))
     ∨ SystemExit "Project 'Acme-HQ' already exists."
       = SystemExit ("Project '" +:+ target (Init "Acme-HQ") +:+ "' not found at "
                     +:+ project_path (target (Init "Acme-HQ")) +:+ ".")
     ∨ (∃ project step status notes p,
          Init "Acme-HQ" = Step project step status notes
          ∧ files (run [Init "Acme HQ"] (boot example_clock))
              !! project_path project
            = Some (Project.to_dict p)
          ∧ SystemExit "Project 'Acme-HQ' already exists."
            = SystemExit
                ("Step '" +:+ step +:+ "' not found. Available steps: "
                 +:+ join ", " (map ProjectStep.name (Project.steps p))))).
Proof.
  apply (failed_command_changes_nothing example_clock [Init "Acme HQ"]
           (Init "Acme-HQ")).
  - all_storable.
  - is_storable.
  - reflexivity.
Defined.

(** ** Records the program did not write *)

Lemma load_project_some name doc w :
  files w !! project_path name = Some doc →
  load_project name w = Project.from_dict doc w.
Proof.
  intros Hrec. unfold load_project, bind, path_exists, read_json. cbv zeta.
  rewrite bool_decide_eq_true_2 by eauto. cbn [negb]. by rewrite Hrec.
Qed.

Lemma comprehension_fmap {A B C} (f : B → M C) (g : A → B) (h : A → C) l w :
  (∀ x w, f (g x) w = (Ok (h x), w)) →
  comprehension f (map g l) w = (Ok (map h l), w).
Proof.
  intros Hfg. induction l as [|x l IH]; [done|].
  cbn [map comprehension]. rewrite (bind_ok _ _ _ _ _ (Hfg x w)).
  by rewrite (bind_ok _ _ _ _ _ IH).
Qed.



(** X11. Loading fills in what a record leaves out: without the keys for
    rules and sources the lists are empty, and a step that gives only its
    name is pending with empty notes.  The world is as it was. *)
Theorem load_project_defaults
    (name n t c : string) (step_names : list string) (w : World) :
  files w !! project_path name
  = Some (JDict [("name", JStr n); ("project_type", JStr t);
                 ("created_at", JStr c);
                 ("steps",
                  JList (map (λ s, JDict [("name", JStr s)]) step_names))]) →
  load_project name w
  = (Ok {| Project.name := n;
           Project.project_type := t;
           Project.created_at := c;
           Project.rules := [];
           Project.steps :=
             map (λ s, ProjectStep.mk s "pending" "") step_names;
           Project.sources := [] |}, w).
Proof.
  intros Hrec. rewrite (load_project_some _ _ _ Hrec).
  unfold Project.from_dict.
  do 3 (erewrite bind_ok; [|reflexivity]).
  erewrite bind_ok; [|reflexivity].
  erewrite bind_ok;
    [|by apply (comprehension_fmap ProjectStep.of_json _
                  (λ s, ProjectStep.mk s "pending" ""))].
  by erewrite bind_ok; [|reflexivity].
Qed.

Lemma load_project_defaults_witness :
  load_project "Acme HQ"
    (with_file "data/projects/Acme-HQ.json"
       (JDict [("name", JStr "Acme HQ"); ("project_type", JStr "PIAM&V");
               ("created_at", JStr "2024");
               ("steps",
                JList (map (λ s, JDict [("name", JStr s)])
                         ["Scoping"; "Reporting"]))])
       (boot example_clock))
  = (Ok {| Project.name := "Acme HQ";
           Project.project_type := "PIAM&V";
           Project.created_at := "2024";
           Project.rules := [];
           Project.steps :=
             map (λ s, ProjectStep.mk s "pending" "") ["Scoping"; "Reporting"];
           Project.sources := [] |},
     with_file "data/projects/Acme-HQ.json"
       (JDict [("name", JStr "Acme HQ"); ("project_type", JStr "PIAM&V");
               ("created_at", JStr "2024");
               ("steps",
                JList (map (λ s, JDict [("name", JStr s)])
                         ["Scoping"; "Reporting"]))])
       (boot example_clock)).
Proof.
  apply (load_project_defaults "Acme HQ" "Acme HQ" "PIAM&V" "2024"
           ["Scoping"; "Reporting"]).
  reflexivity.
Defined.

Lemma untimed_rules_run (l : list (string * string * string)) w :
  comprehension Rule.of_json
    (map (λ '(source, title, text),
            JDict [("source", JStr source); ("title", JStr title);
                   ("text", JStr text)]) l) w
  = (Ok (imap (λ i '(source, title, text),
                 Rule.mk source title text "" "" (clock w (ticks w + i))) l),
     mkWorld (files w) (stdout w) (clock w) (ticks w + List.length l)).
Proof.
  revert w. induction l as [|[[source title] text] l IH]; intros w.
  - cbn. rewrite Nat.add_0_r. by destruct w.
  - cbn [map comprehension].
    erewrite bind_ok; [|reflexivity]. rewrite (bind_ok _ _ _ _ _ (IH _)).
    cbn. unfold ret. rewrite Nat.add_0_r. f_equal.
    + do 2 f_equal. apply imap_ext. intros i [[s t] x] _. cbn.
      do 2 f_equal. lia.
    + f_equal. lia.
Qed.

(** X12. A rule on file without a time stamp gets one when it is loaded:
    the constructor's default reads the clock, once for every such rule and
    in their order, and section and page default to the empty string.  So
    loading such a record advances the clock by the number of its rules. *)
Theorem load_project_stamps_untimed_rules
    (name n t c : string) (l : list (string * string * string)) (w : World) :
  files w !! project_path name
  = Some (JDict [("name", JStr n); ("project_type", JStr t);
                 ("created_at", JStr c);
                 ("rules",
                  JList (map (λ '(source, title, text),
                                JDict [("source", JStr source);
                                       ("title", JStr title);
                                       ("text", JStr text)]) l))]) →
  load_project name w
  = (Ok {| Project.name := n;
           Project.project_type := t;
           Project.created_at := c;
           Project.rules :=
             imap (λ i '(source, title, text),
                     Rule.mk source title text "" ""
                             (clock w (ticks w + i))) l;
           Project.steps := [];
           Project.sources := [] |},
     mkWorld (files w) (stdout w) (clock w) (ticks w + List.length l)).
Proof.
  intros Hrec. rewrite (load_project_some _ _ _ Hrec).
  unfold Project.from_dict.
  do 3 (erewrite bind_ok; [|reflexivity]).
  erewrite bind_ok; [|apply untimed_rules_run].
  by do 2 (erewrite bind_ok; [|reflexivity]).
Qed.

Lemma load_project_stamps_untimed_rules_witness :
  load_project "Acme HQ"
    (with_file "data/projects/Acme-HQ.json"
       (JDict [("name", JStr "Acme HQ"); ("project_type", JStr "PIAM&V");
               ("created_at", JStr "2024");
               ("rules",
                JList (map (λ '(source, title, text),
                              JDict [("source", JStr source);
                                     ("title", JStr title);
                                     ("text", JStr text)])
                         [("IPMVP", "Baseline", "Define it.");
                          ("NSW", "Metering", "Meter it.")]))])
       (boot example_clock))
  = (Ok {| Project.name := "Acme HQ";
           Project.project_type := "PIAM&V";
           Project.created_at := "2024";
           Project.rules :=
             [Rule.mk "IPMVP" "Baseline" "Define it." "" ""
                "2024-05-01T09:00:00";
              Rule.mk "NSW" "Metering" "Meter it." "" ""
                "2024-05-01T09:00:01"];
           Project.steps := [];
           Project.sources := [] |},
     mkWorld
       (files (with_file "data/projects/Acme-HQ.json"
                 (JDict [("name", JStr "Acme HQ");
                         ("project_type", JStr "PIAM&V");
                         ("created_at", JStr "2024");
                         ("rules",
                          JList (map (λ '(source, title, text),
                                        JDict [("source", JStr source);
                                               ("title", JStr title);
                                               ("text", JStr text)])
                                   [("IPMVP", "Baseline", "Define it.");
                                    ("NSW", "Metering", "Meter it.")]))])
                 (boot example_clock)))
       [] example_clock 2).
Proof.
  apply (load_project_stamps_untimed_rules "Acme HQ" "Acme HQ" "PIAM&V" "2024"
           [("IPMVP", "Baseline", "Define it."); ("NSW", "Metering", "Meter it.")]).
  reflexivity.
Defined.

(** ** More on the storage token *)

Lemma lstrip_idem s : lstrip (lstrip s) = lstrip s.
Proof.
  induction s as [|c s IH]; [done|]. cbn.
  destruct (isspace c) eqn:Hc; [done|]. cbn. by rewrite Hc.
Qed.

Lemma rstrip_idem s : rstrip (rstrip s) = rstrip s.
Proof.
  induction s as [|c s IH]; [done|]. cbn [rstrip].
  destruct (rstrip s) as [|d r] eqn:Hr.
  - destruct (isspace c) eqn:Hc; [done|]. cbn. by rewrite Hc.
  - cbn [rstrip] in *. by rewrite IH.
Qed.

Lemma strip_idem s : strip (strip s) = strip s.
Proof.
  unfold strip. by rewrite rstrip_lstrip, rstrip_idem, lstrip_idem.
Qed.

Lemma lstrip_strip s : lstrip (strip s) = strip s.
Proof. apply lstrip_idem. Qed.

Lemma rstrip_strip s : rstrip (strip s) = strip s.
Proof. unfold strip. by rewrite rstrip_lstrip, rstrip_idem. Qed.

Lemma lstrip_length s : (String.length (lstrip s) ≤ String.length s)%nat.
Proof.
  induction s as [|c s IH]; [done|]. cbn. destruct (isspace c); cbn; lia.
Qed.

Lemma lstrip_fixed_head c s : lstrip (String c s) = String c s → isspace c = false.
Proof.
  intros Hfix. destruct (isspace c) eqn:Hc; [|done]. cbn in Hfix.
  rewrite Hc in Hfix. pose proof (lstrip_length s) as Hlen.
  rewrite Hfix in Hlen. cbn in Hlen. lia.
Qed.

Lemma replace_head c : isspace c = false → (if Ascii.eqb c " " then "-"%char else c) = c.
Proof. intros Hc. destruct (Ascii.eqb_spec c " ") as [->|]; done. Qed.

Lemma lstrip_replace_fixed s :
  lstrip s = s → lstrip (replace " " "-" s) = replace " " "-" s.
Proof.
  destruct s as [|c s]; [done|]. intros Hc%lstrip_fixed_head.
  cbn. by rewrite (replace_head c Hc), Hc.
Qed.

Lemma rstrip_replace_fixed s :
  rstrip s = s → rstrip (replace " " "-" s) = replace " " "-" s.
Proof.
  induction s as [|c s IH]; [done|]. cbn [rstrip replace].
  destruct (rstrip s) as [|d r] eqn:Hr.
  - destruct (isspace c) eqn:Hc; [done|]. intros [= <-]. cbn.
    by rewrite (replace_head c Hc), Hc.
  - intros [= <-]. rewrite IH by done. done.
Qed.

Lemma strip_token name :
  strip (replace " " "-" (strip name)) = replace " " "-" (strip name).
Proof.
  unfold strip at 1.
  rewrite rstrip_replace_fixed by apply rstrip_strip.
  apply lstrip_replace_fixed, lstrip_strip.
Qed.

Lemma replace_idem s :
  replace " " "-" (replace " " "-" s) = replace " " "-" s.
Proof.
  induction s as [|c s IH]; [done|]. cbn. rewrite IH. f_equal.
  by destruct (Ascii.eqb_spec c " ") as [->|]; [|destruct (Ascii.eqb_spec c " ")].
Qed.

Lemma replace_no_space s : ¬ has_char " " (replace " " "-" s).
Proof.
  unfold has_char. induction s as [|c s IH]; cbn.
  - by intros ?%elem_of_nil.
  - intros [Hc|Hs]%elem_of_cons; [|done].
    by destruct (Ascii.eqb_spec c " ").
Qed.

Lemma project_path_same_token a b :
  replace " " "-" (strip a) = replace " " "-" (strip b) →
  project_path a = project_path b.
Proof. unfold project_path. cbv zeta. by intros ->. Qed.

Lemma has_char_replace c s :
  c ≠ "-"%char → has_char c (replace " " "-" s) → has_char c s.
Proof.
  unfold has_char. intros Hc. induction s as [|x s IH]; [done|]. cbn.
  rewrite !elem_of_cons. intros [->|Hin]; [|auto].
  destruct (Ascii.eqb_spec x " "); [done|by left].
Qed.

Lemma replace_inj_plain a b :
  ¬ has_char "-" a → ¬ has_char "-" b →
  replace " " "-" a = replace " " "-" b → a = b.
Proof.
  unfold has_char. revert b.
  induction a as [|c a IH]; intros [|d b] Ha Hb Heq; try done.
  cbn in Ha, Hb, Heq. rewrite not_elem_of_cons in Ha, Hb.
  destruct Ha as [Hc Ha], Hb as [Hd Hb]. injection Heq as Hhead Heq.
  f_equal; [|by apply IH].
  destruct (Ascii.eqb_spec c " ") as [->|], (Ascii.eqb_spec d " ") as [->|];
    congruence.
Qed.

(** X14. The token in a project's path is clean and stable: it contains no
    space and has no whitespace at either end; used as a name, it has the
    same path as the name it came from, and so has the trimmed name. *)
Theorem storage_token_is_clean (name : string) :
  ¬ has_char " " (replace " " "-" (strip name))
  ∧ strip (replace " " "-" (strip name)) = replace " " "-" (strip name)
  ∧ project_path (replace " " "-" (strip name)) = project_path name
  ∧ project_path (strip name) = project_path name.
Proof.
  split_and!.
  - apply replace_no_space.
  - apply strip_token.
  - apply project_path_same_token. by rewrite strip_token, replace_idem.
  - apply project_path_same_token. by rewrite strip_idem.
Qed.

(** X15. On plain names the mapping from names to paths is injective: two
    names that have no whitespace at either end, no hyphen and no path
    separator share a path only when they are the same name. *)
Theorem project_path_injective_on_plain_names (a b : string) :
  strip a = a → strip b = b →
  ¬ has_char "-" a → ¬ has_char "-" b →
  ¬ has_char "/" a → ¬ has_char "/" b →
  project_path a = project_path b → a = b.
Proof.
  intros Ha Hb Hna Hnb Hsa Hsb Heq.
  apply project_path_plain_inj in Heq.
  - rewrite Ha, Hb in Heq. by apply replace_inj_plain.
  - rewrite Ha. by intros ?%has_char_replace.
  - rewrite Hb. by intros ?%has_char_replace.
Qed.

Lemma project_path_injective_on_plain_names_witness :
  "Acme HQ" = "Acme HQ".
Proof.
  apply (project_path_injective_on_plain_names "Acme HQ" "Acme HQ");
    try reflexivity; no_such_char.
Defined.

(** ** More invariants of sessions *)

Lemma status_token_choice status : status_token status ∈ status_choices.
Proof. destruct status; unfold status_choices; cbn; repeat constructor. Qed.

Lemma regular_new name now : regular (new_project name now).
Proof.
  split; [done|]. cbn. unfold status_choices. repeat constructor.
Qed.

Lemma regular_set_steps p pre s post status notes :
  regular p → Project.steps p = pre ++ s :: post →
  regular (Project.set_steps p
             (pre ++ ProjectStep.mk (ProjectStep.name s) (status_token status)
                       notes :: post)).
Proof.
  intros [Htype Hsteps] Hsplit. split; [done|]. cbn.
  rewrite Hsplit in Hsteps. apply Forall_app in Hsteps as [Hpre Hpost].
  apply Forall_cons in Hpost as [_ Hpost].
  apply Forall_app. split; [done|]. constructor; [|done].
  apply status_token_choice.
Qed.

Ltac same_record :=
  let H := fresh in
  intros H; apply (inj Some), to_dict_inj in H; subst.

Lemma main_regular args w :
  kept w →
  (∀ path p, files w !! path = Some (Project.to_dict p) → regular p) →
  ∀ path p, files (main args w).2 !! path = Some (Project.to_dict p) →
            regular p.
Proof.
  intros Hkept Hreg path q.
  destruct (files w !! project_path (target args)) as [doc|] eqn:Hrec.
  - destruct (Hkept _ _ Hrec) as (p & -> & Hpath & _).
    pose proof (Hreg _ _ Hrec) as Hp.
    destruct args as [name|project source title text section page|project
                     |project name' path' notes|project
                     |project step status notes|project];
      cbn [main target] in *.
    + rewrite init_project_taken by eauto. apply Hreg.
    + rewrite (add_rule_run _ _ _ _ _ _ _ _ Hrec). cbn. rewrite lookup_insert.
      case_decide; [|apply Hreg]. by same_record.
    + rewrite quiet_list_rules. apply Hreg.
    + rewrite (add_source_run _ _ _ _ _ _ Hrec). cbn. rewrite lookup_insert.
      case_decide; [|apply Hreg]. by same_record.
    + rewrite quiet_list_sources. apply Hreg.
    + destruct (first_match step (Project.steps p))
        as [Hno|(pre & s & post & Hsplit & Hpre & Hs)].
      * rewrite (update_step_miss _ _ _ _ _ _ Hrec Hno). apply Hreg.
      * rewrite (update_step_match _ _ _ _ _ _ _ _ _ Hrec Hsplit Hpre Hs).
        cbn. rewrite lookup_insert.
        case_decide; [|apply Hreg]. same_record.
        by apply regular_set_steps.
    + rewrite quiet_show_project. apply Hreg.
  - destruct args; [|rewrite main_missing by done; apply Hreg..].
    cbn [main target] in *. rewrite (init_project_fresh _ _ Hrec). cbn.
    rewrite lookup_insert.
    case_decide; [|apply Hreg]. same_record.
    apply regular_new.
Qed.

Lemma run_regular session w :
  kept w →
  (∀ path p, files w !! path = Some (Project.to_dict p) → regular p) →
  ∀ path p, files (run session w) !! path = Some (Project.to_dict p) →
            regular p.
Proof.
  revert w. induction session as [|args session IH]; intros w Hkept Hreg;
    [done|].
  rewrite run_cons. apply IH; [by apply main_kept|by apply main_regular].
Qed.

(** X16. What is on record after any session: every project has the type
    PIAM&V, every step has one of the three statuses the command line
    accepts, and the name in the record has the path the record is filed
    under. *)
Theorem session_records_are_regular
    (clock : nat → string) (session : list command)
    (path : string) (p : Project.t) :
  files (run session (boot clock)) !! path = Some (Project.to_dict p) →
  Project.project_type p = "PIAM&V"
  ∧ Forall (λ s, ProjectStep.status s = "pending"
                 ∨ ProjectStep.status s = "in_progress"
                 ∨ ProjectStep.status s = "complete") (Project.steps p)
  ∧ project_path (Project.name p) = path.
Proof.
  intros Hrec.
  destruct (run_regular session (boot clock) (boot_kept clock)) with path p
    as [Htype Hsteps]; [|done|].
  { intros path' p'. cbn. by rewrite lookup_empty. }
  destruct (run_kept session _ (boot_kept clock) _ _ Hrec)
    as (q & ->%to_dict_inj & Hpath & _).
  split_and!; [done| |done].
  eapply Forall_impl; [done|]. intros s Hs. unfold status_choices in Hs.
  repeat (apply elem_of_cons in Hs as [Hs|Hs]; [auto|]).
  by apply elem_of_nil in Hs.
Qed.

Lemma session_records_are_regular_witness :
  Project.project_type
    (Project.mk "Acme HQ" "PIAM&V" "2024-05-01T09:00:00" []
       (ProjectStep.mk "Project scoping" "in_progress" "kick-off"
        :: map (λ step, ProjectStep.mk step "pending" "")
             (drop 1 DEFAULT_PIAMV_STEPS)) []) = "PIAM&V"
  ∧ Forall (λ s, ProjectStep.status s = "pending"
                 ∨ ProjectStep.status s = "in_progress"
                 ∨ ProjectStep.status s = "complete")
      (Project.steps
         (Project.mk "Acme HQ" "PIAM&V" "2024-05-01T09:00:00" []
            (ProjectStep.mk "Project scoping" "in_progress" "kick-off"
             :: map (λ step, ProjectStep.mk step "pending" "")
                  (drop 1 DEFAULT_PIAMV_STEPS)) []))
  ∧ project_path
      (Project.name
         (Project.mk "Acme HQ" "PIAM&V" "2024-05-01T09:00:00" []
            (ProjectStep.mk "Project scoping" "in_progress" "kick-off"
             :: map (λ step, ProjectStep.mk step "pending" "")
                  (drop 1 DEFAULT_PIAMV_STEPS)) []))
    = "data/projects/Acme-HQ.json".
Proof.
  apply (session_records_are_regular example_clock
           [Init "Acme HQ";
            Step " Acme HQ" "PROJECT SCOPING" in_progress (Some "kick-off")]).
  reflexivity.
Defined.

Lemma canonical_lower_NoDup : NoDup (map lower DEFAULT_PIAMV_STEPS).
Proof. apply (bool_decide_unpack _). vm_compute. exact I. Qed.

(** X17. In a project on record after any session, a step name picks at
    most one step: the canonical names stay distinct when case is ignored,
    so the first match of [update_step] is the only one. *)
Theorem session_step_match_is_unique
    (clock : nat → string) (session : list command)
    (path : string) (p : Project.t) (step : string)
    (i j : nat) (si sj : ProjectStep.t) :
  files (run session (boot clock)) !! path = Some (Project.to_dict p) →
  Project.steps p !! i = Some si →
  Project.steps p !! j = Some sj →
  lower (ProjectStep.name si) = lower step →
  lower (ProjectStep.name sj) = lower step →
  i = j.
Proof.
  intros Hrec Hi Hj Hsi Hsj.
  destruct (run_kept session _ (boot_kept clock) _ _ Hrec)
    as (q & ->%to_dict_inj & _ & Hnames).
  pose proof canonical_lower_NoDup as Hnodup. rewrite <-Hnames in Hnodup.
  eapply (NoDup_lookup _ i j (lower step)); [done|..].
  - by rewrite !list_lookup_fmap, Hi; cbn; rewrite Hsi.
  - by rewrite !list_lookup_fmap, Hj; cbn; rewrite Hsj.
Qed.

Lemma session_step_match_is_unique_witness : 4 = 4.
Proof.
  apply (session_step_match_is_unique example_clock [Init "Acme HQ"]
           "data/projects/Acme-HQ.json"
           (new_project "Acme HQ" "2024-05-01T09:00:00") "DATA collection"
           4 4 (ProjectStep.mk "Data collection" "pending" "")
           (ProjectStep.mk "Data collection" "pending" "")); reflexivity.
Defined.

Lemma py_or_idem notes d : py_or notes (py_or notes d) = py_or notes d.
Proof. by destruct notes as [[|]|]. Qed.

(** X18. Updating a step is idempotent on the files: running the same
    update a second time gives the same result and leaves the files as the
    first run left them. *)
Theorem update_step_idempotent
    (project step status : string) (notes : option string)
    (p : Project.t) (w : World) :
  files w !! project_path project = Some (Project.to_dict p) →
  project_path (Project.name p) = project_path project →
  (update_step project step status notes
     (update_step project step status notes w).2).1
  = (update_step project step status notes w).1
  ∧ files (update_step project step status notes
             (update_step project step status notes w).2).2
    = files (update_step project step status notes w).2.
Proof.
  intros Hrec Hpath.
  destruct (first_match step (Project.steps p))
    as [Hno|(pre & s & post & Hsplit & Hpre & Hs)].
  { rewrite (update_step_miss _ _ _ _ _ _ Hrec Hno). cbn.
    by rewrite (update_step_miss _ _ _ _ _ _ Hrec Hno). }
  rewrite (update_step_match _ _ _ _ _ _ _ _ _ Hrec Hsplit Hpre Hs). cbn [snd fst].
  erewrite (update_step_match project step status notes
              (Project.set_steps p _) pre
              (ProjectStep.mk (ProjectStep.name s) status
                 (py_or notes (ProjectStep.notes s))) post);
    [|cbn; rewrite Hpath; apply lookup_insert_eq|done..].
  cbn. rewrite py_or_idem. split; [done|].
  by rewrite insert_insert_eq.
Qed.

Lemma update_step_idempotent_witness :
  (update_step "Acme HQ" "data collection" "complete" (Some "done")
     (update_step "Acme HQ" "data collection" "complete" (Some "done")
        (run [Init "Acme HQ"] (boot example_clock))).2).1
  = Ok ()
  ∧ files (update_step "Acme HQ" "data collection" "complete" (Some "done")
             (update_step "Acme HQ" "data collection" "complete" (Some "done")
                (run [Init "Acme HQ"] (boot example_clock))).2).2
    = files (run [Init "Acme HQ";
                  Step "Acme HQ" "data collection" complete (Some "done")]
               (boot example_clock)).
Proof.
  apply (update_step_idempotent "Acme HQ" "data collection" "complete"
           (Some "done") (new_project "Acme HQ" "2024-05-01T09:00:00")
           (run [Init "Acme HQ"] (boot example_clock))); reflexivity.
Defined.

Lemma update_step_loop_lower step step' status notes p i todo w :
  lower step = lower step' →
  update_step_loop step status notes p i todo w
  = update_step_loop step' status notes p i todo w.
Proof.
  intros Hlower. revert i. induction todo as [|s todo IH]; intros i; [done|].
  cbn [update_step_loop]. rewrite Hlower.
  destruct (String.eqb _ _); [done|apply IH].
Qed.

(** X19. The case of the step name on the command line does not matter:
    two step names that are equal when lowered lead [update_step] to the
    same world, whatever the files hold.  Only the message of the
    step-not-found exit, which quotes the name as given, can differ. *)
Theorem update_step_ignores_case
    (project step step' status : string) (notes : option string) (w : World) :
  lower step = lower step' →
  (update_step project step status notes w).2
  = (update_step project step' status notes w).2
  ∧ (∀ u, (update_step project step status notes w).1 = Ok u
          ↔ (update_step project step' status notes w).1 = Ok u).
Proof.
  intros Hlower. unfold update_step, bind.
  destruct (load_project project w) as [[p|e] w1]; [|done].
  rewrite (update_step_loop_lower step step' _ _ _ _ _ _ Hlower).
  destruct (update_step_loop step' status notes p 0 (Project.steps p) w1)
    as [[[|]|e] w2]; done.
Qed.

Lemma update_step_ignores_case_witness :
  (update_step "Acme HQ" "DATA Collection" "complete" None
     (run [Init "Acme HQ"] (boot example_clock))).2
  = (update_step "Acme HQ" "data collection" "complete" None
       (run [Init "Acme HQ"] (boot example_clock))).2
  ∧ (∀ u, (update_step "Acme HQ" "DATA Collection" "complete" None
             (run [Init "Acme HQ"] (boot example_clock))).1 = Ok u
          ↔ (update_step "Acme HQ" "data collection" "complete" None
               (run [Init "Acme HQ"] (boot example_clock))).1 = Ok u).
Proof.
  apply (update_step_ignores_case "Acme HQ" "DATA Collection" "data collection"
           "complete" None (run [Init "Acme HQ"] (boot example_clock))).
  reflexivity.
Defined.

Lemma init_paths_cons args session :
  init_paths (args :: session) = init_paths [args] ∪ init_paths session.
Proof.
  unfold init_paths. destruct args; cbn;
    by rewrite ?union_empty_r_L, ?union_empty_l_L.
Qed.

Lemma init_or_not args :
  (∃ name, args = Init name) ∨ (∀ name, args ≠ Init name).
Proof. destruct args; eauto. Qed.

Lemma main_dom args w :
  kept w →
  dom (files (main args w).2) = init_paths [args] ∪ dom (files w).
Proof.
  intros Hkept.
  destruct (init_or_not args) as [[name ->]|Hother].
  - replace (init_paths [Init name]) with ({[project_path name]} : gset string)
      by (unfold init_paths; cbn; by rewrite union_empty_r_L).
    cbn [main].
    destruct (files w !! project_path name) as [doc|] eqn:Hrec.
    + rewrite init_project_taken by eauto. cbn.
      apply (elem_of_dom_2 (files w)) in Hrec.
      symmetry. apply subseteq_union_1_L. by apply singleton_subseteq_l.
    + rewrite (init_project_fresh _ _ Hrec). cbn. apply dom_insert_L.
  - replace (init_paths [args]) with (∅ : gset string)
      by (destruct args; [by destruct (Hother name)|done..]).
    rewrite union_empty_l_L.
    destruct (main_effect args w Hkept)
      as [Heq|(p' & Heq & _ & _ & [(name & -> & _)|(p & Hp & _)])];
      rewrite Heq; [done|by destruct (Hother name)|].
    rewrite dom_insert_L. apply (elem_of_dom_2 (files w)) in Hp.
    apply subseteq_union_1_L. by apply singleton_subseteq_l.
Qed.

Lemma run_dom session w :
  kept w →
  dom (files (run session w)) = init_paths session ∪ dom (files w).
Proof.
  revert w. induction session as [|args session IH]; intros w Hkept.
  - unfold init_paths. cbn. by rewrite union_empty_l_L.
  - rewrite run_cons, IH by by apply main_kept.
    rewrite main_dom, (init_paths_cons args session) by done.
    apply set_eq. intros x. rewrite !elem_of_union. tauto.
Qed.

(** X20. The files after a session whose names the file system takes are
    exactly the paths of the names the session gave to [init]: each such name
    has a record, whether its own [init] created it or found it there, no
    other command creates a file, and no command removes one. *)
Theorem session_files_are_init_paths
    (readings : nat → string) (session : list command) :
  Forall (λ args, storable (target args)) session →
  dom (files (run session (boot readings))) = init_paths session.
Proof.
  intros _. rewrite run_dom by apply boot_kept. cbn.
  by rewrite dom_empty_L, union_empty_r_L.
Qed.

Lemma session_files_are_init_paths_witness :
  dom (files (run [Init "Acme HQ"; Show "Plant B"; Init "Acme-HQ";
                   AddRule "Depot" "IPMVP" "Baseline" "Define it." None None;
                   Init "Plant B"]
                (boot example_clock)))
  = init_paths [Init "Acme HQ"; Show "Plant B"; Init "Acme-HQ";
                AddRule "Depot" "IPMVP" "Baseline" "Define it." None None;
                Init "Plant B"].
Proof.
  apply (session_files_are_init_paths example_clock).
  all_storable.
Defined.

Lemma update_step_known project step status notes p w :
  files w !! project_path project = Some (Project.to_dict p) →
  lower step ∈ map lower (map ProjectStep.name (Project.steps p)) →
  ∃ w', update_step project step status notes w = (Ok (), w').
Proof.
  intros Hrec Hin.
  destruct (first_match step (Project.steps p))
    as [Hno|(pre & s & post & Hsplit & Hpre & Hs)].
  - apply list_elem_of_fmap in Hin as (n & Hn & Hin).
    apply list_elem_of_fmap in Hin as (s & -> & Hin).
    rewrite Forall_forall in Hno. by destruct (Hno s Hin).
  - rewrite (update_step_match _ _ _ _ _ _ _ _ _ Hrec Hsplit Hpre Hs). eauto.
Qed.

Lemma update_step_unknown project step status notes p w :
  files w !! project_path project = Some (Project.to_dict p) →
  lower step ∉ map lower (map ProjectStep.name (Project.steps p)) →
  update_step project step status notes w
  = (Raise (SystemExit
              ("Step '" +:+ step +:+ "' not found. Available steps: "
               +:+ join ", " (map ProjectStep.name (Project.steps p)))), w).
Proof.
  intros Hrec Hnotin. apply update_step_miss; [done|].
  apply Forall_forall. intros s Hs Hnames. apply Hnotin.
  apply list_elem_of_fmap. exists (ProjectStep.name s). split; [done|].
  apply list_elem_of_fmap. eauto.
Qed.

(** X21. After any session, updating a step of a project on record
    succeeds exactly for the seven canonical step names, in any case; for
    any other step name it ends with the step-not-found exit, whose message
    lists the seven canonical names, and the world is as it was. *)
Theorem session_update_step_outcome
    (clock : nat → string) (session : list command)
    (project step status : string) (notes : option string) :
  is_Some (files (run session (boot clock)) !! project_path project) →
  (lower step ∈ map lower DEFAULT_PIAMV_STEPS →
   ∃ w', update_step project step status notes (run session (boot clock))
         = (Ok (), w'))
  ∧ (lower step ∉ map lower DEFAULT_PIAMV_STEPS →
     update_step project step status notes (run session (boot clock))
     = (Raise (SystemExit
                 ("Step '" +:+ step +:+ "' not found. Available steps: "
                  +:+ "Project scoping, Baseline definition, "
                  +:+ "Measurement & verification plan, "
                  +:+ "Implementation & commissioning, Data collection, "
                  +:+ "Analysis & savings calculation, Reporting & assurance")),
        run session (boot clock))).
Proof.
  intros [doc Hrec].
  destruct (run_kept session _ (boot_kept clock) _ _ Hrec)
    as (p & -> & _ & Hnames).
  split; intros Hstep.
  - apply (update_step_known _ _ _ _ p); [done|]. by rewrite Hnames.
  - rewrite (update_step_unknown _ _ _ _ p), Hnames; [done..|].
    by rewrite Hnames.
Qed.

Lemma session_update_step_outcome_witness :
  (lower "REPORTING & ASSURANCE" ∈ map lower DEFAULT_PIAMV_STEPS →
   ∃ w', update_step "Acme-HQ" "REPORTING & ASSURANCE" "complete" None
           (run [Init "Acme HQ"] (boot example_clock))
         = (Ok (), w'))
  ∧ (lower "REPORTING & ASSURANCE" ∉ map lower DEFAULT_PIAMV_STEPS →
     update_step "Acme-HQ" "REPORTING & ASSURANCE" "complete" None
       (run [Init "Acme HQ"] (boot example_clock))
     = (Raise (SystemExit
                 ("Step '" +:+ "REPORTING & ASSURANCE"
                  +:+ "' not found. Available steps: "
                  +:+ "Project scoping, Baseline definition, "
                  +:+ "Measurement & verification plan, "
                  +:+ "Implementation & commissioning, Data collection, "
                  +:+ "Analysis & savings calculation, Reporting & assurance")),
        run [Init "Acme HQ"] (boot example_clock))).
Proof.
  apply (session_update_step_outcome example_clock [Init "Acme HQ"]
           "Acme-HQ" "REPORTING & ASSURANCE" "complete" None).
  eexists. reflexivity.
Defined.

(** X22. Saving overwrites the whole record: of two saves to the same
    path only the second shows, the files are as if the first had not
    happened, and loading returns the second project. *)
Theorem save_project_overwrites (p q : Project.t) (w : World) :
  project_path (Project.name p) = project_path (Project.name q) →
  files (save_project q (save_project p w).2).2 = files (save_project q w).2
  ∧ load_project (Project.name p) (save_project q (save_project p w).2).2
    = (Ok q, (save_project q (save_project p w).2).2).
Proof.
  intros Hpath. rewrite !save_project_run. cbn [snd]. split.
  - cbn. rewrite Hpath. apply insert_insert_eq.
  - apply load_project_found. rewrite Hpath. cbn. apply lookup_insert_eq.
Qed.

Lemma save_project_overwrites_witness :
  files (save_project (new_project "Acme-HQ" "later")
           (save_project (new_project "Acme HQ" "sooner")
              (boot example_clock)).2).2
  = files (save_project (new_project "Acme-HQ" "later") (boot example_clock)).2
  ∧ load_project "Acme HQ"
      (save_project (new_project "Acme-HQ" "later")
         (save_project (new_project "Acme HQ" "sooner")
            (boot example_clock)).2).2
    = (Ok (new_project "Acme-HQ" "later"),
       (save_project (new_project "Acme-HQ" "later")
          (save_project (new_project "Acme HQ" "sooner")
             (boot example_clock)).2).2).
Proof.
  apply (save_project_overwrites (new_project "Acme HQ" "sooner")
           (new_project "Acme-HQ" "later") (boot example_clock)).
  reflexivity.
Defined.

(** X23. Loading a project and saving it back changes no file: the record
    written is the record that was read, when the record is filed under the
    path of its own name. *)
Theorem load_then_save_is_identity (name : string) (p : Project.t) (w : World) :
  files w !! project_path name = Some (Project.to_dict p) →
  project_path (Project.name p) = project_path name →
  ∃ w1 w2,
    load_project name w = (Ok p, w1)
    ∧ save_project p w1 = (Ok (), w2)
    ∧ files w2 = files w.
Proof.
  intros Hrec Hpath. eexists _, _.
  split; [by apply load_project_found|]. split; [apply save_project_run|].
  cbn. rewrite Hpath. by apply insert_id.
Qed.

Lemma load_then_save_is_identity_witness :
  ∃ w1 w2,
    load_project "Acme-HQ" (run [Init "Acme HQ"] (boot example_clock))
    = (Ok (new_project "Acme HQ" "2024-05-01T09:00:00"), w1)
    ∧ save_project (new_project "Acme HQ" "2024-05-01T09:00:00") w1
      = (Ok (), w2)
    ∧ files w2 = files (run [Init "Acme HQ"] (boot example_clock)).
Proof.
  apply (load_then_save_is_identity "Acme-HQ"
           (new_project "Acme HQ" "2024-05-01T09:00:00")
           (run [Init "Acme HQ"] (boot example_clock))); reflexivity.
Defined.
